(** * AI Adventure Engine: the turn-generation pipeline

    A shallow embedding of [src/services/aiService.ts] (the generation
    client, the prompt builder, the response normaliser, the fallback pool,
    the connectivity test, the configuration), of the turn orchestration of
    [src/components/GameInterface.tsx] (session state, the handlers, the
    in-flight asynchronous calls) and of the handlers of the configuration
    panel [AIConfig].

    Conventions.
    - A JavaScript string is the list of its UTF-16 code units, so [length],
      [firstn] and [++] are [.length], [.substring(0, n)] and [+].
    - A value produced by [JSON.parse] is a [json] tree; property access on it
      follows the language ([null.x] throws, a missing property is
      [undefined], modelled by [None]).
    - [try]/[catch] is an error monad: [Ok v] is a normal completion (a
      fulfilled promise), [Throw e] an exception (a rejected promise).
    - What the environment decides is an input: the outcome of [fetch], the
      index drawn by [Math.random], the text typed into a dialog. *)

From Stdlib Require Import String Ascii.
From Stdlib Require Import List Bool Arith ZArith NArith Lia.
From Stdlib Require DecimalString.
Import ListNotations.

(* ===================================================================== *)
(** ** JavaScript strings *)
(* ===================================================================== *)

Module JsString.

(** One UTF-16 code unit. *)
Definition codeunit := N.

Definition jsstring := list codeunit.

Definition ch (a : ascii) : codeunit := N_of_ascii a.

(** The code units of an ASCII literal. *)
Definition str (s : string) : jsstring := map ch (list_ascii_of_string s).

(** A literal of the source that holds double quotes is written here with
    [~] where the source has the double quote (no literal of the source
    holds a [~]). *)
Definition dquote : codeunit := 34%N.

Definition quoted (s : string) : jsstring :=
  map (fun c => if N.eqb c (ch "~") then dquote else c) (str s).

Fixpoint eqb (a b : jsstring) : bool :=
  match a, b with
  | [], [] => true
  | x :: a', y :: b' => N.eqb x y && eqb a' b'
  | _, _ => false
  end.

(** [n.toString()] for a non-negative integer [n]. *)
Definition of_nat (n : nat) : jsstring :=
  str (DecimalString.NilZero.string_of_uint (Nat.to_uint n)).

Fixpoint prefixb (p s : jsstring) : bool :=
  match p, s with
  | [], _ => true
  | x :: p', y :: s' => N.eqb x y && prefixb p' s'
  | _ :: _, [] => false
  end.

(** [s.includes(p)]. *)
Fixpoint includes (s p : jsstring) : bool :=
  prefixb p s ||
  match s with
  | [] => false
  | _ :: s' => includes s' p
  end.

(** White space and line terminators, the code units [trim] removes. *)
Definition is_space (c : codeunit) : bool :=
  existsb (N.eqb c)
    [9; 10; 11; 12; 13; 32; 160; 5760; 8232; 8233; 8239; 8287; 12288; 65279]%N
  || (N.leb 8192 c && N.leb c 8202).

Fixpoint trim_start (s : jsstring) : jsstring :=
  match s with
  | c :: s' => if is_space c then trim_start s' else s
  | [] => []
  end.

(** [s.trim()]. *)
Definition trim (s : jsstring) : jsstring :=
  rev (trim_start (rev (trim_start s))).

(** Everything from the first [c] on, when [s] holds one. *)
Fixpoint from_first (c : codeunit) (s : jsstring) : option jsstring :=
  match s with
  | [] => None
  | x :: s' => if N.eqb x c then Some s else from_first c s'
  end.

(** [s.match(/\{[\s\S]*\}/)]: the leftmost opening brace and, the star
    being greedy, everything up to the last closing brace after it;
    [None] is the [null] of a failed match, [Some m] is [jsonMatch[0]]. *)
Definition match_braces (s : jsstring) : option jsstring :=
  match from_first (ch "{") s with
  | Some (_ :: rest) =>
      match from_first (ch "}") (rev rest) with
      | Some upto => Some (ch "{" :: rev upto)
      | None => None
      end
  | _ => None
  end.

(** [s.split('\n')[0]]. *)
Fixpoint first_line (s : jsstring) : jsstring :=
  match s with
  | [] => []
  | c :: s' => if N.eqb c 10 then [] else c :: first_line s'
  end.

(** [s.replace(p, '')] for a string pattern [p]: the first occurrence of
    [p] is removed. *)
Fixpoint remove_first (p s : jsstring) : jsstring :=
  if prefixb p s then skipn (length p) s
  else match s with
       | [] => []
       | c :: s' => c :: remove_first p s'
       end.

(** [s.toUpperCase()] for a string of ASCII code units. *)
Definition ascii_upper (s : jsstring) : jsstring :=
  map (fun c => if N.leb 97 c && N.leb c 122 then (c - 32)%N else c) s.

End JsString.
Import JsString.

(* ===================================================================== *)
(** ** Exceptions *)
(* ===================================================================== *)

(** What a [throw] carries: an [Error] object with its message (the
    [TypeError] and [SyntaxError] of the runtime are [Error]s too), or a value
    that is not an [Error]. *)
Inductive exn : Type :=
| ErrorObj (message : jsstring)
| NotAnError.

Inductive result (A : Type) : Type :=
| Ok (a : A)
| Throw (e : exn).
Arguments Ok {A} a.
Arguments Throw {A} e.

Definition bind {A B} (r : result A) (k : A -> result B) : result B :=
  match r with
  | Ok a => k a
  | Throw e => Throw e
  end.

(** [try { body } catch (error) { handler }]. *)
Definition try_catch {A} (body : result A) (handler : exn -> result A) : result A :=
  match body with
  | Ok a => Ok a
  | Throw e => handler e
  end.

Declare Scope js_scope.
Notation "x <- c ;; k" := (bind c (fun x => k))
  (at level 61, c at next level, right associativity) : js_scope.
Open Scope js_scope.

Definition type_error {A} : result A := Throw (ErrorObj (str "TypeError")).
Definition syntax_error {A} : result A := Throw (ErrorObj (str "SyntaxError")).

(* ===================================================================== *)
(** ** Values read by [JSON.parse] *)
(* ===================================================================== *)

(** A number is kept as the decimal literal it was read from,
    [JNum m e] for [m * 10^e]; an object keeps its members in source order
    (a repeated key is read as its last occurrence). *)
#[local] Set Warnings "-register-all".
Inductive json : Type :=
| JNull
| JBool (b : bool)
| JNum (m e : Z)
| JStr (s : jsstring)
| JArr (items : list json)
| JObj (members : list (jsstring * json)).

(** The number semantics of the host, which the program does not define:
    how a literal rounds to a double, and the conversions of the abstract
    comparison. The program reaches them only on payloads that hold numbers
    or whose [story], [text] or [choices] is an object with a member named
    [length]. *)
Record Runtime : Type := {
  (** [ToBoolean] of the double read from [m * 10^e]. *)
  number_truthy : Z -> Z -> bool;
  (** [w > n] for a parsed value [w]; [Throw] when [ToPrimitive] throws. *)
  loose_gt : json -> nat -> result bool;
  (** [w === n] for a parsed value [w]. *)
  strict_eq : json -> nat -> bool
}.

Module Json.

(** The own property [k] of an object read by [JSON.parse]. *)
Definition lookup (k : jsstring) (members : list (jsstring * json)) : option json :=
  fold_left (fun found kv => if JsString.eqb (fst kv) k then Some (snd kv) else found)
            members None.

(** [v.k] for a value [v] that is neither [null] nor [undefined] and a name
    [k] other than [length]. None of the names the program reads
    ([candidates], [content], [parts], [text], [story], [choices], [id]) is a
    member of a prototype, so only an object has them. *)
Definition field (v : json) (k : jsstring) : option json :=
  match v with
  | JObj members => lookup k members
  | _ => None
  end.

(** [v[i]] for a value [v] that is neither [null] nor [undefined]. *)
Definition item (v : json) (i : nat) : option json :=
  match v with
  | JArr items => nth_error items i
  | JStr s => option_map (fun c => JStr [c]) (nth_error s i)
  | JObj members => lookup (JsString.of_nat i) members
  | _ => None
  end.

(** [v.k] where [v] comes from [JSON.parse]: reading a property of [null]
    throws. *)
Definition get (v : json) (k : jsstring) : result (option json) :=
  match v with
  | JNull => type_error
  | _ => Ok (field v k)
  end.

(** [v?.k] and [v?.[i]]. *)
Definition get_opt (v : option json) (k : jsstring) : option json :=
  match v with
  | None | Some JNull => None
  | Some x => field x k
  end.

Definition item_opt (v : option json) (i : nat) : option json :=
  match v with
  | None | Some JNull => None
  | Some x => item x i
  end.

(** [ToBoolean], with [None] for [undefined]. *)
Definition truthy (R : Runtime) (v : option json) : bool :=
  match v with
  | None | Some JNull => false
  | Some (JBool b) => b
  | Some (JNum m e) => number_truthy R m e
  | Some (JStr s) => negb (JsString.eqb s [])
  | Some (JArr _) | Some (JObj _) => true
  end.

(** [v.length] for a truthy [v]: the length of a string or of an array, the
    own member [length] of an object, [undefined] otherwise. *)
Inductive jslength : Type :=
| LenNat (n : nat)
| LenOwn (w : json)
| LenUndefined.

Definition length_of (v : json) : jslength :=
  match v with
  | JStr s => LenNat (length s)
  | JArr items => LenNat (length items)
  | JObj members =>
      match lookup (str "length") members with
      | Some w => LenOwn w
      | None => LenUndefined
      end
  | _ => LenUndefined
  end.

(** [v.length > n]; [undefined > n] is false. *)
Definition length_gt (R : Runtime) (v : json) (n : nat) : result bool :=
  match length_of v with
  | LenNat l => Ok (n <? l)
  | LenOwn w => loose_gt R w n
  | LenUndefined => Ok false
  end.

(** [v.length === n]. *)
Definition length_is (R : Runtime) (v : json) (n : nat) : bool :=
  match length_of v with
  | LenNat l => l =? n
  | LenOwn w => strict_eq R w n
  | LenUndefined => false
  end.

(** [v.substring(0, n)]: only a string has the method. *)
Definition substring0 (v : json) (n : nat) : result jsstring :=
  match v with
  | JStr s => Ok (firstn n s)
  | _ => type_error
  end.

End Json.

(* ===================================================================== *)
(** ** [JSON.parse] *)
(* ===================================================================== *)

(** The JSON grammar, read in two passes that are both structural: a lexer
    that walks the code units once, and a pushdown recogniser over the
    tokens. [None] is the [SyntaxError] of [JSON.parse]. *)
Module JsonParse.

Inductive token : Type :=
| TLBrace | TRBrace | TLBracket | TRBracket | TColon | TComma
| TString (s : jsstring)
| TNumber (m e : Z)
| TTrue | TFalse | TNull.

Definition is_ws (c : codeunit) : bool :=
  existsb (N.eqb c) [32; 9; 10; 13]%N.

Definition is_digit (c : codeunit) : bool := N.leb 48 c && N.leb c 57.

Definition is_lower (c : codeunit) : bool := N.leb 97 c && N.leb c 122.

(** The code units a number literal is made of. *)
Definition is_number_unit (c : codeunit) : bool :=
  is_digit c || existsb (N.eqb c) [ch "-"; ch "+"; ch "."; ch "e"; ch "E"].

Definition hex_value (c : codeunit) : option N :=
  if is_digit c then Some (c - 48)%N
  else if N.leb 97 c && N.leb c 102 then Some (c - 87)%N
  else if N.leb 65 c && N.leb c 70 then Some (c - 55)%N
  else None.

(** *** Number literals *)

Fixpoint digits (s : jsstring) : list Z * jsstring :=
  match s with
  | c :: s' =>
      if is_digit c
      then let (ds, rest) := digits s' in (Z.of_N (c - 48) :: ds, rest)
      else ([], s)
  | [] => ([], [])
  end.

Definition decimal (ds : list Z) : Z :=
  fold_left (fun a d => 10 * a + d)%Z ds 0%Z.

(** An optional minus sign; an integer part, which is [0] or starts with a
    non-zero digit; an optional fraction, a dot and one digit or more; an
    optional exponent, [e] or [E], an optional sign, one digit or more. *)
Definition number_token (lexeme : jsstring) : option token :=
  let (neg, s1) := match lexeme with
                   | c :: r => if N.eqb c (ch "-") then (true, r) else (false, lexeme)
                   | [] => (false, [])
                   end in
  let (int, s2) := digits s1 in
  match int with
  | [] => None
  | d :: more =>
      if Z.eqb d 0 && negb (length more =? 0) then None else
      let frac_rest :=
        match s2 with
        | c :: r => if N.eqb c (ch ".")
                    then let (fr, r') := digits r in
                         match fr with [] => None | _ => Some (fr, r') end
                    else Some ([], s2)
        | [] => Some ([], [])
        end in
      match frac_rest with
      | None => None
      | Some (frac, s3) =>
          let exp_rest :=
            match s3 with
            | c :: r =>
                if N.eqb c (ch "e") || N.eqb c (ch "E") then
                  let (eneg, r1) :=
                    match r with
                    | c' :: r' => if N.eqb c' (ch "-") then (true, r')
                                  else if N.eqb c' (ch "+") then (false, r')
                                  else (false, r)
                    | [] => (false, [])
                    end in
                  let (ex, r2) := digits r1 in
                  match ex with
                  | [] => None
                  | _ => Some (if eneg then (- decimal ex)%Z else decimal ex, r2)
                  end
                else Some (0%Z, s3)
            | [] => Some (0%Z, [])
            end in
          match exp_rest with
          | Some (ex, []) =>
              let m := decimal (int ++ frac) in
              Some (TNumber (if neg then (- m)%Z else m) (ex - Z.of_nat (length frac))%Z)
          | _ => None
          end
      end
  end.

Definition word_token (w : jsstring) : option token :=
  if JsString.eqb w (str "true") then Some TTrue
  else if JsString.eqb w (str "false") then Some TFalse
  else if JsString.eqb w (str "null") then Some TNull
  else None.

(** *** The lexer *)

(** What the lexer is in the middle of; the accumulators are reversed. *)
Inductive lexmode : Type :=
| LTop
| LStr (acc : jsstring)
| LEsc (acc : jsstring)
| LHex (acc : jsstring) (hex : list N)
| LNum (acc : jsstring)
| LWord (acc : jsstring).

(** A code unit met between tokens: the token it is, if any, and the mode it
    opens. *)
Definition start (c : codeunit) : option (option token * lexmode) :=
  if is_ws c then Some (None, LTop)
  else if N.eqb c (ch "{") then Some (Some TLBrace, LTop)
  else if N.eqb c (ch "}") then Some (Some TRBrace, LTop)
  else if N.eqb c (ch "[") then Some (Some TLBracket, LTop)
  else if N.eqb c (ch "]") then Some (Some TRBracket, LTop)
  else if N.eqb c (ch ":") then Some (Some TColon, LTop)
  else if N.eqb c (ch ",") then Some (Some TComma, LTop)
  else if N.eqb c dquote then Some (None, LStr [])
  else if is_digit c || N.eqb c (ch "-") then Some (None, LNum [c])
  else if is_lower c then Some (None, LWord [c])
  else None.

Definition escape (c : codeunit) : option codeunit :=
  if N.eqb c dquote then Some dquote
  else if N.eqb c (ch "\") then Some (ch "\")
  else if N.eqb c (ch "/") then Some (ch "/")
  else if N.eqb c (ch "b") then Some 8%N
  else if N.eqb c (ch "f") then Some 12%N
  else if N.eqb c (ch "n") then Some 10%N
  else if N.eqb c (ch "r") then Some 13%N
  else if N.eqb c (ch "t") then Some 9%N
  else None.

Definition emit (t : option token) (ts : option (list token)) : option (list token) :=
  match t, ts with
  | Some t, Some ts => Some (t :: ts)
  | None, ts => ts
  | _, None => None
  end.

Fixpoint lex (mode : lexmode) (s : jsstring) : option (list token) :=
  match s with
  | [] =>
      match mode with
      | LTop => Some []
      | LNum acc => emit (number_token (rev acc)) (Some [])
      | LWord acc => emit (word_token (rev acc)) (Some [])
      | _ => None
      end
  | c :: s' =>
      match mode with
      | LTop =>
          match start c with
          | Some (t, mode') => emit t (lex mode' s')
          | None => None
          end
      | LStr acc =>
          if N.eqb c dquote then emit (Some (TString (rev acc))) (lex LTop s')
          else if N.eqb c (ch "\") then lex (LEsc acc) s'
          else if N.ltb c 32 then None
          else lex (LStr (c :: acc)) s'
      | LEsc acc =>
          if N.eqb c (ch "u") then lex (LHex acc []) s'
          else match escape c with
               | Some u => lex (LStr (u :: acc)) s'
               | None => None
               end
      | LHex acc hex =>
          match hex_value c with
          | None => None
          | Some h =>
              match hex with
              | [a; b; d] => lex (LStr ((((a * 16 + b) * 16 + d) * 16 + h)%N :: acc)) s'
              | _ => lex (LHex acc (hex ++ [h])) s'
              end
          end
      | LNum acc =>
          if is_number_unit c then lex (LNum (c :: acc)) s'
          else match number_token (rev acc), start c with
               | Some n, Some (t, mode') => emit (Some n) (emit t (lex mode' s'))
               | _, _ => None
               end
      | LWord acc =>
          if is_lower c then lex (LWord (c :: acc)) s'
          else match word_token (rev acc), start c with
               | Some w, Some (t, mode') => emit (Some w) (emit t (lex mode' s'))
               | _, _ => None
               end
      end
  end.

(** *** The recogniser *)

(** A container being read: an array with the items read so far, an object
    with the members read so far and the key whose value is awaited. Both
    accumulators are reversed. *)
Inductive frame : Type :=
| FArr (items : list json)
| FObj (members : list (jsstring * json)) (key : option jsstring).

(** What may come next. *)
Inductive expect : Type :=
| EValue
| EValueOrClose
| EKey
| EKeyOrClose
| EColon
| ECommaOrClose
| EEnd (v : json).

(** A value is complete: it is the whole text, or it goes into the innermost
    open container. *)
Definition complete (v : json) (stack : list frame) : option (list frame * expect) :=
  match stack with
  | [] => Some ([], EEnd v)
  | FArr items :: up => Some (FArr (v :: items) :: up, ECommaOrClose)
  | FObj members (Some k) :: up => Some (FObj ((k, v) :: members) None :: up, ECommaOrClose)
  | FObj _ None :: _ => None
  end.

Definition close_array (stack : list frame) : option (list frame * expect) :=
  match stack with
  | FArr items :: up => complete (JArr (rev items)) up
  | _ => None
  end.

Definition close_object (stack : list frame) : option (list frame * expect) :=
  match stack with
  | FObj members None :: up => complete (JObj (rev members)) up
  | _ => None
  end.

Definition value_token (t : token) (stack : list frame) : option (list frame * expect) :=
  match t with
  | TLBrace => Some (FObj [] None :: stack, EKeyOrClose)
  | TLBracket => Some (FArr [] :: stack, EValueOrClose)
  | TString s => complete (JStr s) stack
  | TNumber m e => complete (JNum m e) stack
  | TTrue => complete (JBool true) stack
  | TFalse => complete (JBool false) stack
  | TNull => complete JNull stack
  | _ => None
  end.

Definition key_token (t : token) (stack : list frame) : option (list frame * expect) :=
  match t, stack with
  | TString k, FObj members None :: up => Some (FObj members (Some k) :: up, EColon)
  | _, _ => None
  end.

Definition step_token (t : token) (stack : list frame) (ex : expect)
  : option (list frame * expect) :=
  match ex with
  | EValue => value_token t stack
  | EValueOrClose =>
      match t with
      | TRBracket => close_array stack
      | _ => value_token t stack
      end
  | EKey => key_token t stack
  | EKeyOrClose =>
      match t with
      | TRBrace => close_object stack
      | _ => key_token t stack
      end
  | EColon =>
      match t with
      | TColon => Some (stack, EValue)
      | _ => None
      end
  | ECommaOrClose =>
      match t, stack with
      | TComma, FArr _ :: _ => Some (stack, EValue)
      | TComma, FObj _ None :: _ => Some (stack, EKey)
      | TRBracket, _ => close_array stack
      | TRBrace, _ => close_object stack
      | _, _ => None
      end
  | EEnd _ => None
  end.

Fixpoint run_tokens (ts : list token) (stack : list frame) (ex : expect) : option json :=
  match ts with
  | [] =>
      match ex with
      | EEnd v => Some v
      | _ => None
      end
  | t :: ts' =>
      match step_token t stack ex with
      | Some (stack', ex') => run_tokens ts' stack' ex'
      | None => None
      end
  end.

(** [JSON.parse(text)]; [None] when it throws a [SyntaxError]. *)
Definition JSON_parse (text : jsstring) : option json :=
  match lex LTop text with
  | Some ts => run_tokens ts [] EValue
  | None => None
  end.

End JsonParse.

(* ===================================================================== *)
(** ** [services/aiService.ts] *)
(* ===================================================================== *)

Module AIService.
Import Json JsonParse.

(** What [await fetch(url, ...)] comes to: the promise rejects (no network,
    DNS, CORS), or a response arrives with its status line and its body. *)
Inductive FetchOutcome : Type :=
| NetworkFailure (detail : jsstring)
| Response (status : nat) (statusText : jsstring) (body : jsstring).

(** [response.ok]. *)
Definition ok (status : nat) : bool := (200 <=? status) && (status <=? 299).

(** *** [getFallbackResponse] *)

Definition fallback1 : jsstring := quoted
"{
        ~story~: ~Static fills the air. You stand at a digital crossroads where three paths converge. Each route pulses with different energy.~,
        ~choices~: [
          {~id~: ~1~, ~text~: ~Take the glowing path~},
          {~id~: ~2~, ~text~: ~Follow the dark route~},
          {~id~: ~3~, ~text~: ~Choose the middle way~},
          {~id~: ~4~, ~text~: ~Step back and observe~}
        ]
      }".

Definition fallback2 : jsstring := quoted
"{
        ~story~: ~Connection unstable. Reality flickers around you like a broken screen. Through the static, you glimpse movement ahead.~,
        ~choices~: [
          {~id~: ~1~, ~text~: ~Move toward the movement~},
          {~id~: ~2~, ~text~: ~Wait for static to clear~},
          {~id~: ~3~, ~text~: ~Touch the flickering air~},
          {~id~: ~4~, ~text~: ~Call out loudly~}
        ]
      }".

Definition fallback3 : jsstring := quoted
"{
        ~story~: ~Demo mode active. You find yourself in a liminal space between worlds. Shadows dance at the periphery of vision.~,
        ~choices~: [
          {~id~: ~1~, ~text~: ~Approach the shadows~},
          {~id~: ~2~, ~text~: ~Stand perfectly still~},
          {~id~: ~3~, ~text~: ~Search for light~},
          {~id~: ~4~, ~text~: ~Listen carefully~}
        ]
      }".

Definition fallback4 : jsstring := quoted
"{
        ~story~: ~The narrative engine stutters. You're caught between story beats, suspended in potential. What happens next depends on you.~,
        ~choices~: [
          {~id~: ~1~, ~text~: ~Force the story forward~},
          {~id~: ~2~, ~text~: ~Embrace the uncertainty~},
          {~id~: ~3~, ~text~: ~Look for an exit~},
          {~id~: ~4~, ~text~: ~Reset everything~}
        ]
      }".

Definition fallback5 : jsstring := quoted
"{
        ~story~: ~Connection lost. In this void, you sense opportunity hiding in the darkness. Your next choice will shape everything.~,
        ~choices~: [
          {~id~: ~1~, ~text~: ~Reach into the darkness~},
          {~id~: ~2~, ~text~: ~Create your own light~},
          {~id~: ~3~, ~text~: ~Wait for revelation~},
          {~id~: ~4~, ~text~: ~Embrace the void~}
        ]
      }".

Definition fallbacks : list jsstring :=
  [fallback1; fallback2; fallback3; fallback4; fallback5].

(** [fallbacks[Math.floor(Math.random() * fallbacks.length)]]. The random
    number is a natural number [draw] the environment supplies, the index
    its remainder modulo the length of the pool. *)
Definition getFallbackResponse (draw : nat) : jsstring :=
  nth (draw mod length fallbacks) fallbacks [].

Section WithRuntime.
Context (R : Runtime).

(** *** [makeAPIRequest] *)

(** [data.candidates?.[0]?.content?.parts?.[0]?.text]: the first read has no
    [?.] and throws on [null]. *)
Definition candidate_text (data : json) : result (option json) :=
  candidates <- get data (str "candidates") ;;
  Ok (get_opt (item_opt (get_opt (get_opt (item_opt candidates 0)
                                          (str "content")) (str "parts")) 0)
              (str "text")).

(** The body of the [try] block. The request (URL, key, prompt, generation
    policy) reaches the function only through the outcome of [fetch]. *)
Definition makeAPIRequest_try (reply : FetchOutcome) : result json :=
  match reply with
  | NetworkFailure detail => Throw (ErrorObj detail)
  | Response status statusText body =>
      if negb (ok status) then
        Throw (ErrorObj (str "API request failed: " ++ JsString.of_nat status ++ str " "
                         ++ statusText ++ str " - " ++ body))
      else
        match JSON_parse body with
        | None => syntax_error
        | Some data =>
            text <- candidate_text data ;;
            match text with
            | Some t =>
                if truthy R text then Ok t
                else Throw (ErrorObj (str "Invalid API response format"))
            | None => Throw (ErrorObj (str "Invalid API response format"))
            end
        end
  end.

Definition makeAPIRequest (reply : FetchOutcome) (draw : nat) : result json :=
  try_catch (makeAPIRequest_try reply)
            (fun _ => Ok (JStr (getFallbackResponse draw))).

(** *** [generateStoryResponse] *)

Definition defaultChoices : list jsstring :=
  [str "Continue forward"; str "Look around"; str "Wait and listen"; str "Go back"].

Definition option_label (n : nat) : jsstring := str "Option " ++ JsString.of_nat n.

(** The object literal [{id: ..., text: ...}]. *)
Definition choice_object (id text : json) : json :=
  JObj [(str "id", id); (str "text", text)].

(** The choice the padding loop pushes onto an array of [len] choices. *)
Definition pushed_choice (len : nat) : json :=
  choice_object (JStr (JsString.of_nat (len + 1)))
                (JStr (match nth_error defaultChoices len with
                       | Some d => if JsString.eqb d [] then option_label (len + 1) else d
                       | None => option_label (len + 1)
                       end)).

(** [while (choices.length < 4) choices.push(...)]; every turn of the loop
    makes the array longer, so four turns are enough. *)
Fixpoint pad_loop (turns : nat) (choices : list json) : list json :=
  match turns with
  | 0 => choices
  | S turns' =>
      if length choices <? 4
      then pad_loop turns' (choices ++ [pushed_choice (length choices)])
      else choices
  end.

(** [if (choices.length !== 4) { pad; choices = choices.slice(0, 4) }]. *)
Definition four_choices (choices : list json) : list json :=
  if length choices =? 4 then choices else firstn 4 (pad_loop 4 choices).

(** [v.substring(0, keep) + '...'] when [v.length > limit]. *)
Definition clip (v : json) (limit keep : nat) : result json :=
  too_long <- length_gt R v limit ;;
  if too_long : bool then
    head <- substring0 v keep ;;
    Ok (JStr (head ++ str "..."))
  else Ok v.

(** The callback of [choices.map]. *)
Definition validChoice (choice : json) (index : nat) : result json :=
  text <- get choice (str "text") ;;
  let choiceText :=
    match text with
    | Some t => if truthy R text then t else JStr (option_label (index + 1))
    | None => JStr (option_label (index + 1))
    end in
  choiceText' <- clip choiceText 35 32 ;;
  id <- get choice (str "id") ;;
  Ok (choice_object
        match id with
        | Some i => if truthy R id then i else JStr (JsString.of_nat (index + 1))
        | None => JStr (JsString.of_nat (index + 1))
        end
        choiceText').

(** [choices.map(callback)], from index [index] on: the first callback that
    throws ends the map. *)
Fixpoint map_choices (choices : list json) (index : nat) : result (list json) :=
  match choices with
  | [] => Ok []
  | c :: rest =>
      c' <- validChoice c index ;;
      rest' <- map_choices rest (index + 1) ;;
      Ok (c' :: rest')
  end.

(** The object literal [{story: ..., choices: ...}]. *)
Definition payload_object (story : json) (choices : list json) : json :=
  JObj [(str "story", story); (str "choices", JArr choices)].

(** Validation and repair of [parsedResponse], from the structure check to
    the [return] of the [try] block. *)
Definition normalize (parsedResponse : json) : result json :=
  story <- get parsedResponse (str "story") ;;
  choices <- get parsedResponse (str "choices") ;;
  match story, choices with
  | Some story, Some (JArr choices) =>
      if truthy R (Some story) then
        story' <- clip story 400 380 ;;
        validChoices <- map_choices (four_choices choices) 0 ;;
        Ok (payload_object story' validChoices)
      else Throw (ErrorObj (str "Invalid response structure"))
  | _, _ => Throw (ErrorObj (str "Invalid response structure"))
  end.

(** The [try] block once the text of the reply is there. *)
Definition parse_reply (response : json) : result json :=
  match response with
  | JStr text =>
      match match_braces (trim text) with
      | None => Throw (ErrorObj (str "No valid JSON found in response"))
      | Some jsonStr =>
          match JSON_parse jsonStr with
          | None => syntax_error
          | Some parsedResponse => normalize parsedResponse
          end
      end
  | _ => type_error
  end.

(** [createNarratorPrompt] builds a string from its arguments and cannot
    throw; the prompt reaches the result only through the reply. [draw] is
    the random number of the fallback inside [makeAPIRequest], [draw'] the
    one of the [catch] block here. *)
Definition generateStoryResponse (reply : FetchOutcome) (draw draw' : nat)
  : result json :=
  try_catch (response <- makeAPIRequest reply draw ;; parse_reply response)
            (fun _ =>
               match JSON_parse (getFallbackResponse draw') with
               | Some parsedFallback => Ok parsedFallback
               | None => syntax_error
               end).

(** *** [testConnection] *)

Definition testConnection (reply : FetchOutcome) (draw : nat) : result bool :=
  try_catch
    (response <- makeAPIRequest reply draw ;;
     match response with
     | JStr text =>
         match match_braces text with
         | Some jsonStr =>
             match JSON_parse jsonStr with
             | None => syntax_error
             | Some parsed =>
                 story <- get parsed (str "story") ;;
                 if truthy R story then
                   choices <- get parsed (str "choices") ;;
                   match choices with
                   | Some c => Ok (truthy R choices && length_is R c 4)
                   | None => Ok false
                   end
                 else Ok false
             end
         | None => Ok false
         end
     | _ => type_error
     end)
    (fun _ => Ok false).

End WithRuntime.

(** *** Configuration *)

Record APIConfig : Type := {
  apiKey : jsstring;
  baseUrl : jsstring
}.

Definition unset_key : jsstring := str "YOUR_GOOGLE_AI_STUDIO_API_KEY_HERE".

(** The configuration the constructor installs. *)
Definition initial_config : APIConfig :=
  {| apiKey := unset_key;
     baseUrl := str "https://generativelanguage.googleapis.com/v1beta/models" |}.

(** [updateConfig({ apiKey: key })], the only way the program calls it. *)
Definition updateConfig (config : APIConfig) (key : jsstring) : APIConfig :=
  {| apiKey := key; baseUrl := baseUrl config |}.

Inductive ApiKeyStatus : Type := valid | invalid | untested.

Definition getApiKeyStatus (config : APIConfig) : ApiKeyStatus :=
  if JsString.eqb (apiKey config) [] || JsString.eqb (apiKey config) unset_key
  then invalid else untested.

End AIService.

(* ===================================================================== *)
(** ** [components/GameInterface.tsx] *)
(* ===================================================================== *)

Module GameInterface.

Inductive MessageType : Type := narrator | user | system | error.

(** The [timestamp] of the source is the wall clock at creation; nothing
    reads it and it is left out. *)
Record GameMessage : Type := {
  type : MessageType;
  content : jsstring
}.

Record GameChoice : Type := {
  id : jsstring;
  text : jsstring
}.

Record GameState : Type := {
  messages : list GameMessage;
  currentChoices : list GameChoice;
  isWaitingForResponse : bool;
  gameStarted : bool;
  storyTopic : jsstring;
  gameHistory : list jsstring
}.

(** The [AIResponse] interface of the service, as the component is typed
    against it. *)
Record AIResponse : Type := {
  story : jsstring;
  choices : list GameChoice
}.

(** The four [useState] cells of the component. *)
Record Component : Type := {
  gameState : GameState;
  userInput : jsstring;
  apiError : option jsstring;
  isUsingFallback : bool
}.

Definition initial_state : GameState :=
  {| messages := []; currentChoices := []; isWaitingForResponse := false;
     gameStarted := false; storyTopic := []; gameHistory := [] |}.

Definition initial_component : Component :=
  {| gameState := initial_state; userInput := []; apiError := None;
     isUsingFallback := false |}.

(** *** State setters *)

(** [setGameState(prev => f(prev))]; [setGameState(value)] is the same with a
    constant function. *)
Definition setGameState (f : GameState -> GameState) (c : Component) : Component :=
  {| gameState := f (gameState c); userInput := userInput c;
     apiError := apiError c; isUsingFallback := isUsingFallback c |}.

Definition setUserInput (v : jsstring) (c : Component) : Component :=
  {| gameState := gameState c; userInput := v;
     apiError := apiError c; isUsingFallback := isUsingFallback c |}.

Definition setApiError (e : option jsstring) (c : Component) : Component :=
  {| gameState := gameState c; userInput := userInput c;
     apiError := e; isUsingFallback := isUsingFallback c |}.

Definition setIsUsingFallback (b : bool) (c : Component) : Component :=
  {| gameState := gameState c; userInput := userInput c;
     apiError := apiError c; isUsingFallback := b |}.

(** [items.slice(-n)]. *)
Definition slice_last {A} (n : nat) (items : list A) : list A :=
  skipn (length items - n) items.

Definition addMessage (ty : MessageType) (text : jsstring) : Component -> Component :=
  setGameState (fun prev =>
    {| messages := messages prev ++ [{| type := ty; content := text |}];
       currentChoices := currentChoices prev;
       isWaitingForResponse := isWaitingForResponse prev;
       gameStarted := gameStarted prev;
       storyTopic := storyTopic prev;
       gameHistory := gameHistory prev |}).

Definition historyEntry (userAction narratorResponse : jsstring) : jsstring :=
  str "Player: " ++ userAction ++ [10%N] ++ str "Narrator: " ++ narratorResponse.

Definition addToGameHistory (userAction narratorResponse : jsstring)
  : Component -> Component :=
  setGameState (fun prev =>
    {| messages := messages prev;
       currentChoices := currentChoices prev;
       isWaitingForResponse := isWaitingForResponse prev;
       gameStarted := gameStarted prev;
       storyTopic := storyTopic prev;
       gameHistory := slice_last 10 (gameHistory prev)
                        ++ [historyEntry userAction narratorResponse] |}).

(** [setGameState(prev => ({...prev, isWaitingForResponse, currentChoices}))]. *)
Definition setTurn (waiting : bool) (offered : list GameChoice)
  : Component -> Component :=
  setGameState (fun prev =>
    {| messages := messages prev;
       currentChoices := offered;
       isWaitingForResponse := waiting;
       gameStarted := gameStarted prev;
       storyTopic := storyTopic prev;
       gameHistory := gameHistory prev |}).

(** *** Asynchronous work in flight *)

(** What runs after [aiService.testConnection()] settles. *)
Inductive TestContinuation : Type :=
| OnMount
| AfterKeyUpdate
| AfterCheck (snap : Component).

(** A suspended computation. Each keeps the state its closure captured when
    the handler ran ([snap]): that, not the live state, is what it reads
    when it resumes. *)
Inductive Pending : Type :=
| StoryCall (snap : Component) (userAction : jsstring) (isFirstTurn : bool)
| StartTimer (snap : Component)
| ConnectionTest (k : TestContinuation).

Record Session : Type := {
  ui : Component;
  config : AIService.APIConfig;
  inflight : list Pending
}.

Definition initial_session : Session :=
  {| ui := initial_component; config := AIService.initial_config; inflight := [] |}.

Definition render (f : Component -> Component) (s : Session) : Session :=
  {| ui := f (ui s); config := config s; inflight := inflight s |}.

Definition spawn (p : Pending) (s : Session) : Session :=
  {| ui := ui s; config := config s; inflight := inflight s ++ [p] |}.

(** *** [generateStoryResponse] *)

(** Up to the first [await]: the call is now in flight. The service is
    called with [snap]'s topic and history, [userAction] and [isFirstTurn]. *)
Definition generateStoryResponse (snap : Component) (userAction : jsstring)
  (isFirstTurn : bool) (s : Session) : Session :=
  spawn (StoryCall snap userAction isFirstTurn)
        (render (setApiError None) (render (setTurn true []) s)).

Definition recovery_choices : list GameChoice :=
  [ {| id := str "1"; text := str "Try again" |};
    {| id := str "2"; text := str "Restart adventure" |};
    {| id := str "3"; text := str "Continue with demo mode" |};
    {| id := str "4"; text := str "Update API settings" |} ].

Definition engine_error : jsstring :=
  str "NARRATIVE ENGINE ERROR: Unable to process request. The AI narrator is experiencing difficulties.".

(** [!apiError]. *)
Definition no_error (e : option jsstring) : bool :=
  match e with
  | None => true
  | Some text => JsString.eqb text []
  end.

(** [error instanceof Error ? error.message : 'Unknown error occurred']. *)
Definition message_of (e : exn) : jsstring :=
  match e with
  | ErrorObj message => message
  | NotAnError => str "Unknown error occurred"
  end.

(** From the moment the service call settles to the end of the function:
    the rest of the [try] block when the promise is fulfilled, the [catch]
    block when it is rejected. With a response of the declared type nothing
    in the rest of the [try] block throws. A fulfilled value that is not of
    the declared type (a story that is a number, say) is outside this
    function: there [response.story.includes] throws after the narrator
    message was added, and the [catch] block runs on a fulfilled call. *)
Definition story_arrived (snap : Component) (userAction : jsstring)
  (isFirstTurn : bool) (r : result AIResponse) (c : Component) : Component :=
  match r with
  | Ok response =>
      let c1 := addMessage narrator (story response) c in
      let c2 := if isFirstTurn then c1
                else addToGameHistory userAction (story response) c1 in
      let c3 := setTurn false (choices response) c2 in
      if JsString.includes (story response) (str "offline mode")
         || JsString.includes (story response) (str "fallback")
      then
        let c4 := setIsUsingFallback true c3 in
        if no_error (apiError snap)
        then setApiError (Some (str "Using offline mode - stories may be limited")) c4
        else c4
      else c3
  | Throw e =>
      let errorMsg := message_of e in
      setTurn false recovery_choices
        (addMessage error engine_error
           (setApiError (Some (str "Failed to generate response: " ++ errorMsg)) c))
  end.

(** *** [restartGame], [updateApiKey], the connectivity tests *)

Definition restartGame (s : Session) : Session :=
  render (setUserInput []) (render (setGameState (fun _ => initial_state)) s).

(** [dialog] is what [prompt(...)] returns: the text typed, or [None] when
    the dialog is dismissed. *)
Definition updateApiKey (dialog : option jsstring) (s : Session) : Session :=
  match dialog with
  | Some newApiKey =>
      if JsString.eqb newApiKey [] || JsString.eqb (JsString.trim newApiKey) []
      then s
      else
        let s1 := {| ui := ui s;
                     config := AIService.updateConfig (config s) (JsString.trim newApiKey);
                     inflight := inflight s |} in
        spawn (ConnectionTest AfterKeyUpdate)
          (render (addMessage system (str "API KEY UPDATED. TESTING CONNECTION..."))
             (render (setApiError None) s1))
  | None => s
  end.

(** The [testAPI] effect that runs once, when the component mounts. *)
Definition testAPI (s : Session) : Session :=
  match AIService.getApiKeyStatus (config s) with
  | AIService.invalid =>
      render (setIsUsingFallback true)
        (render (setApiError (Some (str "No API key configured. Using demo mode."))) s)
  | _ => spawn (ConnectionTest OnMount) s
  end.

(** What runs when [testConnection()] settles. A [then] callback does not
    run on a rejected promise; the [await] of [testAPI] sits in a [try]. *)
Definition test_arrived (k : TestContinuation) (r : result bool) (s : Session) : Session :=
  match k, r with
  | OnMount, Ok true =>
      render (setIsUsingFallback false) (render (setApiError None) s)
  | OnMount, Ok false =>
      render (setIsUsingFallback true)
        (render (setApiError
                   (Some (str "AI service connection failed. Using fallback responses."))) s)
  | OnMount, Throw _ =>
      render (setIsUsingFallback true)
        (render (setApiError (Some (str "Connection test failed. Using demo mode."))) s)
  | AfterKeyUpdate, Ok true =>
      render (setIsUsingFallback false)
        (render (addMessage system (str "CONNECTION SUCCESSFUL! AI NARRATOR ONLINE.")) s)
  | AfterKeyUpdate, Ok false =>
      render (setIsUsingFallback true)
        (render (setApiError (Some (str "Invalid API key or connection failed")))
           (render (addMessage system (str "CONNECTION FAILED. CHECK YOUR API KEY.")) s))
  | AfterCheck snap, Ok true =>
      generateStoryResponse snap (str "check surroundings") false
        (render (setIsUsingFallback false)
           (render (setApiError None)
              (render (addMessage system
                         (str "CONNECTION RESTORED. CONTINUING ADVENTURE...")) s)))
  | AfterCheck _, Ok false =>
      render (setIsUsingFallback true)
        (render (setApiError (Some (str "Using offline mode")))
           (render (addMessage system
                      (str "CONNECTION FAILED. USING LOCAL FALLBACK MODE.")) s))
  | _, Throw _ => s
  end.

(** *** [handleChoice], [handleUserInput] *)

(** [gameHistory[gameHistory.length - 1]?.split('\n')[0]?.replace('Player: ', '')
    || 'continue']. *)
Definition lastAction (history : list jsstring) : jsstring :=
  match last (map Some history) None with
  | Some entry =>
      let action := JsString.remove_first (str "Player: ") (JsString.first_line entry) in
      if JsString.eqb action [] then str "continue" else action
  | None => str "continue"
  end.

Definition echo (text : jsstring) : jsstring := str "> " ++ text.

Definition handleChoice (snap : Component) (choice : GameChoice)
  (dialog : option jsstring) (s : Session) : Session :=
  if JsString.eqb (text choice) (str "Restart adventure") then restartGame s
  else if JsString.eqb (text choice) (str "Try again")
          && (0 <? length (gameHistory (gameState snap))) then
    generateStoryResponse snap (lastAction (gameHistory (gameState snap))) false
      (render (addMessage user (echo (text choice))) s)
  else if JsString.eqb (text choice) (str "Update API settings") then
    updateApiKey dialog s
  else if JsString.eqb (text choice) (str "Continue with demo mode") then
    generateStoryResponse snap (str "continue in demo mode") false
      (render (setApiError (Some (str "Demo mode active - limited story variations")))
         (render (setIsUsingFallback true)
            (render (addMessage system (str "SWITCHING TO DEMO MODE..."))
               (render (addMessage user (echo (text choice))) s))))
  else if JsString.eqb (text choice) (str "Check connection") then
    spawn (ConnectionTest (AfterCheck snap))
      (render (addMessage system (str "TESTING AI CONNECTION..."))
         (render (addMessage user (echo (text choice))) s))
  else
    generateStoryResponse snap (text choice) false
      (render (addMessage user (echo (text choice))) s).

Definition handleUserInput (snap : Component) (s : Session) : Session :=
  if JsString.eqb (JsString.trim (userInput snap)) []
     || isWaitingForResponse (gameState snap)
  then s
  else
    render (setUserInput [])
      (generateStoryResponse snap (userInput snap) false
         (render (addMessage user (echo (userInput snap))) s)).

(** The choice buttons the game screen renders: none while a response is
    awaited. *)
Definition offered_choices (c : Component) : list GameChoice :=
  if gameStarted (gameState c)
     && (0 <? length (currentChoices (gameState c)))
     && negb (isWaitingForResponse (gameState c))
  then currentChoices (gameState c)
  else [].

Section Events.

(** [String.prototype.toUpperCase], with the case tables of the host. *)
Variable toUpperCase : jsstring -> jsstring.

(** *** [startGame] *)

Definition startGame (snap : Component) (s : Session) : Session :=
  if JsString.eqb (JsString.trim (storyTopic (gameState snap))) [] then s
  else
    let started :=
      setGameState (fun prev =>
        {| messages := messages prev;
           currentChoices := currentChoices prev;
           isWaitingForResponse := isWaitingForResponse prev;
           gameStarted := true;
           storyTopic := storyTopic prev;
           gameHistory := [] |}) in
    spawn (StartTimer snap)
      (render (addMessage system (str "===== ADVENTURE BEGINS ====="))
         (render (addMessage system (str "REALITY MATRIX ESTABLISHED."))
            (render (addMessage system (str "LOADING NARRATIVE ENGINE..."))
               (render (addMessage system
                          (if isUsingFallback snap
                           then str "RUNNING IN DEMO MODE..."
                           else str "CONNECTING TO AI NARRATOR..."))
                  (render (addMessage system
                             (str "INITIALIZING ADVENTURE: "
                              ++ toUpperCase (storyTopic (gameState snap))))
                     (render started s)))))).

(** *** The event loop *)

(** How a suspended computation resumes. *)
Inductive Outcome : Type :=
| Elapsed
| Story (r : result AIResponse)
| Tested (r : result bool).

Inductive Event : Type :=
| Mounted
| TopicChanged (value : jsstring)
| InputChanged (value : jsstring)
| StartClicked
| ChoiceClicked (choice : GameChoice) (dialog : option jsstring)
| Submitted
| RestartClicked
| ApiKeyClicked (dialog : option jsstring)
| Resumed (i : nat) (o : Outcome).

Definition remove_nth {A} (i : nat) (items : list A) : list A :=
  firstn i items ++ skipn (S i) items.

Definition resume (i : nat) (o : Outcome) (s : Session) : Session :=
  let rest := {| ui := ui s; config := config s;
                 inflight := remove_nth i (inflight s) |} in
  match nth_error (inflight s) i, o with
  | Some (StoryCall snap userAction isFirstTurn), Story r =>
      render (story_arrived snap userAction isFirstTurn r) rest
  | Some (StartTimer snap), Elapsed =>
      generateStoryResponse snap [] true rest
  | Some (ConnectionTest k), Tested r => test_arrived k r rest
  | _, _ => s
  end.

(** One step of the component. A handler closes over the state of the last
    render, which is the live state when the event arrives. *)
Definition step (ev : Event) (s : Session) : Session :=
  match ev with
  | Mounted => testAPI s
  | TopicChanged value =>
      render (setGameState (fun prev =>
        {| messages := messages prev;
           currentChoices := currentChoices prev;
           isWaitingForResponse := isWaitingForResponse prev;
           gameStarted := gameStarted prev;
           storyTopic := value;
           gameHistory := gameHistory prev |})) s
  | InputChanged value => render (setUserInput value) s
  | StartClicked => startGame (ui s) s
  | ChoiceClicked choice dialog => handleChoice (ui s) choice dialog s
  | Submitted => handleUserInput (ui s) s
  | RestartClicked => restartGame s
  | ApiKeyClicked dialog => updateApiKey dialog s
  | Resumed i o => resume i o s
  end.

Definition run (evs : list Event) (s : Session) : Session :=
  fold_left (fun s ev => step ev s) evs s.

(** The generation calls in flight. *)
Definition story_calls (s : Session) : nat :=
  length (filter (fun p => match p with StoryCall _ _ _ => true | _ => false end)
                 (inflight s)).

End Events.

End GameInterface.

(* ===================================================================== *)
(** ** The service result as the component sees it *)
(* ===================================================================== *)

Module Boundary.
Import Json GameInterface.

(** A value of the service read at the type the component declares for it;
    [None] when a member is missing or is not a string (an array for
    [choices]). *)
Definition to_choice (v : json) : option GameChoice :=
  match field v (str "id"), field v (str "text") with
  | Some (JStr i), Some (JStr t) => Some {| id := i; text := t |}
  | _, _ => None
  end.

Fixpoint to_choices (vs : list json) : option (list GameChoice) :=
  match vs with
  | [] => Some []
  | v :: rest =>
      match to_choice v, to_choices rest with
      | Some c, Some cs => Some (c :: cs)
      | _, _ => None
      end
  end.

Definition to_AIResponse (v : json) : option AIResponse :=
  match field v (str "story"), field v (str "choices") with
  | Some (JStr s), Some (JArr cs) =>
      option_map (fun cs' => {| story := s; choices := cs' |}) (to_choices cs)
  | _, _ => None
  end.

(** [await aiService.generateStoryResponse(...)] as the component receives
    it. *)
Definition service_reply (R : Runtime) (reply : AIService.FetchOutcome)
  (draw draw' : nat) : option (result AIResponse) :=
  match AIService.generateStoryResponse R reply draw draw' with
  | Ok v => option_map Ok (to_AIResponse v)
  | Throw e => Some (Throw e)
  end.

End Boundary.

(* ===================================================================== *)
(** ** A runtime to run the model with *)
(* ===================================================================== *)

(** Numbers read exactly, as decimals; a value that is not a number compares
    like [NaN]. *)
Definition exact_gt (m e : Z) (n : nat) : bool :=
  if (0 <=? e)%Z then (Z.of_nat n <? m * 10 ^ e)%Z
  else (Z.of_nat n * 10 ^ (- e) <? m)%Z.

Definition exact_eq (m e : Z) (n : nat) : bool :=
  if (0 <=? e)%Z then (Z.of_nat n =? m * 10 ^ e)%Z
  else (Z.of_nat n * 10 ^ (- e) =? m)%Z.

Definition exact_runtime : Runtime :=
  {| number_truthy := fun m _ => negb (m =? 0)%Z;
     loose_gt := fun w n => match w with
                            | JNum m e => Ok (exact_gt m e n)
                            | _ => Ok false
                            end;
     strict_eq := fun w n => match w with
                             | JNum m e => exact_eq m e n
                             | _ => false
                             end |}.

(* ===================================================================== *)
(** ** The vocabulary of the properties *)
(* ===================================================================== *)

Module Props.
Import Json JsonParse AIService GameInterface Boundary.

(** *** Failures of the generation call *)

(** The text member of a reply body, [candidates[0].content.parts[0].text],
    when the body parses and the member is there and truthy. *)
Definition text_member (R : Runtime) (body : jsstring) : option json :=
  match JSON_parse body with
  | Some data =>
      match candidate_text data with
      | Ok (Some t) => if truthy R (Some t) then Some t else None
      | _ => None
      end
  | None => None
  end.

(** The three failures of a generation call: the transport fails, the
    status is not a success, the response lacks the text member. *)
Inductive transport_failure (R : Runtime) : FetchOutcome -> Prop :=
| transport_fails detail :
    transport_failure R (NetworkFailure detail)
| status_fails status statusText body :
    ok status = false ->
    transport_failure R (Response status statusText body)
| text_missing status statusText body :
    ok status = true ->
    text_member R body = None ->
    transport_failure R (Response status statusText body).

(** *** Payloads *)

(** The invariants of a turn payload: a non-empty story of at most 400 code
    units, exactly four choices, each text of at most 35 code units. *)
Definition valid_payload (p : AIResponse) : Prop :=
  story p <> []
  /\ length (story p) <= 400
  /\ length (choices p) = 4
  /\ Forall (fun c => length (text c) <= 35) (choices p).

(** The payload of the pool entry that [draw] selects, at the type of the
    component. *)
Definition fallback_response (draw : nat) : option AIResponse :=
  match JSON_parse (getFallbackResponse draw) with
  | Some v => to_AIResponse v
  | None => None
  end.

(** An entry of a [choices] array that is a choice: it is not [null], and its
    [text], when present, is a string or [null]. *)
Definition choice_like (c : json) : bool :=
  match c with
  | JNull => false
  | _ =>
      match field c (str "text") with
      | None | Some JNull | Some (JStr _) => true
      | _ => false
      end
  end.

(** A string cut to its first [keep] code units and an ellipsis when it is
    longer than [limit]. *)
Definition clipped (t : jsstring) (limit keep : nat) : jsstring :=
  if limit <? length t then firstn keep t ++ str "..." else t.

(** The text of a choice before the cut: its own when it is a non-empty
    string, [Option N] otherwise. *)
Definition text_or_label (c : json) (index : nat) : jsstring :=
  match field c (str "text") with
  | Some (JStr t) => if JsString.eqb t [] then option_label (index + 1) else t
  | _ => option_label (index + 1)
  end.

(** The id of a choice after repair: its own when it is truthy, its 1-based
    position otherwise. *)
Definition id_or_position (R : Runtime) (c : json) (index : nat) : json :=
  match field c (str "id") with
  | Some i => if truthy R (Some i) then i else JStr (JsString.of_nat (index + 1))
  | None => JStr (JsString.of_nat (index + 1))
  end.

Definition repaired (R : Runtime) (c : json) (index : nat) : json :=
  choice_object (id_or_position R c index)
                (JStr (clipped (text_or_label c index) 35 32)).

Fixpoint repaired_from (R : Runtime) (cs : list json) (index : nat) : list json :=
  match cs with
  | [] => []
  | c :: rest => repaired R c index :: repaired_from R rest (index + 1)
  end.

(** *** Turns *)

(** A non-first turn that completes: the state its handler captured, the
    player action, the response of the service. *)
Record Turn : Type := {
  turn_snap : Component;
  turn_action : jsstring;
  turn_response : AIResponse
}.

Definition complete_turn (c : Component) (t : Turn) : Component :=
  story_arrived (turn_snap t) (turn_action t) false (Ok (turn_response t)) c.

Definition complete_turns (ts : list Turn) (c : Component) : Component :=
  fold_left complete_turn ts c.

Definition turn_entry (t : Turn) : jsstring :=
  historyEntry (turn_action t) (story (turn_response t)).

(** *** Sample inputs *)

Definition sample_long_story : jsstring := repeat (ch "a") 401.

Definition sample_entry : json :=
  choice_object (JStr (str "1")) (JStr (str "Open the door")).

(** [{story: "aaa...", choices: [{id: "1", text: "Open the door"}]}]. *)
Definition sample_payload : json :=
  payload_object (JStr sample_long_story) [sample_entry].

(** An HTTP 500 and a network failure. *)
Definition sample_server_error : FetchOutcome :=
  Response 500 (str "Internal Server Error") (str "overloaded").

Definition sample_offline : FetchOutcome := NetworkFailure (str "Failed to fetch").

Definition look_around : GameChoice := {| id := str "1"; text := str "Look around" |}.

Definition try_again : GameChoice := {| id := str "1"; text := str "Try again" |}.

Definition opening_response : AIResponse :=
  {| story := str "You wake in total darkness. Water drips nearby.";
     choices := [ look_around;
                  {| id := str "2"; text := str "Call out" |};
                  {| id := str "3"; text := str "Stand up" |};
                  {| id := str "4"; text := str "Wait" |} ] |}.

(** A response whose first choice happens to read "Try again". *)
Definition retry_response : AIResponse :=
  {| story := str "The door slams shut. The lock clicks.";
     choices := [ try_again;
                  {| id := str "2"; text := str "Kick the door" |};
                  {| id := str "3"; text := str "Search the room" |};
                  {| id := str "4"; text := str "Shout for help" |} ] |}.

(** The component mounts, the player enters an API key and the connectivity
    test answers [true], the player starts a game on the topic "lost cave". *)
Definition sample_start : list Event :=
  [ Mounted; ApiKeyClicked (Some (str "AIzaSy-sample-key"));
    Resumed 0 (Tested (Ok true));
    TopicChanged (str "lost cave"); StartClicked ].

(** The opening turn has completed: the session is idle, in live mode, with
    an empty history, and offers the four choices of the opening. *)
Definition sample_idle : Session :=
  run JsString.ascii_upper
      (sample_start ++ [Resumed 0 Elapsed; Resumed 0 (Story (Ok opening_response))])
      initial_session.

(** The same, where the opening offers "Try again". *)
Definition sample_retry : Session :=
  run JsString.ascii_upper
      (sample_start ++ [Resumed 0 Elapsed; Resumed 0 (Story (Ok retry_response))])
      initial_session.

(** The player types "look" and submits it before the timer of [startGame]
    has fired. *)
Definition sample_early_input : Session :=
  run JsString.ascii_upper
      (sample_start ++ [InputChanged (str "look"); Submitted])
      initial_session.

(** Eleven turns, with the actions "1" to "11". *)
Definition sample_turns : list Turn :=
  map (fun n => {| turn_snap := initial_component;
                   turn_action := JsString.of_nat n;
                   turn_response := opening_response |})
      (seq 1 11).

Definition is_error_message (m : GameMessage) : bool :=
  match type m with
  | error => true
  | _ => false
  end.

End Props.

(* ===================================================================== *)
(** ** [createNarratorPrompt] *)
(* ===================================================================== *)

Module Prompt.

(** [basePrompt], up to the topic. *)
Definition base_before_topic : jsstring := quoted
"You are a master of classic text adventures like Zork and Hitchhiker's Guide, creating immersive second-person narratives.

STORY TOPIC: ".

(** [basePrompt], after the topic. *)
Definition base_after_topic : jsstring := quoted
"

CRITICAL RULES:
- Write in second person (~You...~)
- Keep responses SHORT and PUNCHY (3-6 sentences max, 50-120 words)
- Create immediate tension and atmosphere
- Use vivid, specific sensory details
- End with urgency, mystery, or intrigue
- Generate exactly 4 distinct, actionable choices
- Each choice must be 2-6 words, clear and different
- Focus on ~what happens NOW~ not backstory
- Make every word count - no fluff or exposition
- Create ~you are there~ immersion

TONE: Mysterious, atmospheric, immediate. Classic adventure game style.

AVOID: Long descriptions, backstory dumps, passive voice, vague language.

JSON FORMAT (STRICT):
{
  ~story~: ~Short, atmospheric description here...~,
  ~choices~: [
    {~id~: ~1~, ~text~: ~Short action~},
    {~id~: ~2~, ~text~: ~Different action~},
    {~id~: ~3~, ~text~: ~Third option~},
    {~id~: ~4~, ~text~: ~Final choice~}
  ]
}".

(** The opening task, up to the topic. *)
Definition opening_before_topic : jsstring := quoted
"

TASK: Create a GRIPPING opening for ~".

(** The opening task, after the topic. *)
Definition opening_after_topic : jsstring := quoted
"~. Drop the player directly into action or immediate situation. No setup - instant engagement.

Examples of effective openings:
- ~Alarm klaxons shriek. Red lights flash across the bridge. The viewscreen shows incoming missiles.~
- ~You wake in total darkness. Stone walls. The sound of dripping water echoes nearby.~
- ~The vampire lord's eyes lock onto yours. His fangs glisten. The door slams shut behind you.~

Generate immediate, atmospheric opening:".

(** Between [basePrompt] and the recent context. *)
Definition action_before_history : jsstring := quoted
"

".

(** Between the recent context and the player action. *)
Definition action_before_action : jsstring := quoted
"

PLAYER ACTION: ".

(** The task that follows the player action. *)
Definition action_after_action : jsstring := quoted
"

TASK: Show IMMEDIATE consequences of their action. What happens RIGHT NOW? Keep it tight, visceral, and compelling. Drive the story forward.

Generate immediate response:".

(** [items.join(sep)]. *)
Fixpoint join (sep : jsstring) (items : list jsstring) : jsstring :=
  match items with
  | [] => []
  | [x] => x
  | x :: rest => x ++ sep ++ join sep rest
  end.

Definition basePrompt (storyTopic : jsstring) : jsstring :=
  base_before_topic ++ storyTopic ++ base_after_topic.

(** The recent context: nothing for an empty history, else a header and
    [gameHistory.slice(-2).join('\n\n')] between two line feeds. *)
Definition recentHistory (gameHistory : list jsstring) : jsstring :=
  if 0 <? length gameHistory
  then [10%N] ++ str "RECENT CONTEXT:" ++ [10%N]
       ++ join [10%N; 10%N] (GameInterface.slice_last 2 gameHistory) ++ [10%N]
  else [].

Definition createNarratorPrompt (storyTopic : jsstring) (gameHistory : list jsstring)
  (userAction : jsstring) (isFirstTurn : bool) : jsstring :=
  if isFirstTurn
  then basePrompt storyTopic ++ opening_before_topic ++ storyTopic ++ opening_after_topic
  else basePrompt storyTopic ++ action_before_history ++ recentHistory gameHistory
       ++ action_before_action ++ userAction ++ action_after_action.

End Prompt.

(* ===================================================================== *)
(** ** [updateConfig] on any partial configuration *)
(* ===================================================================== *)

Module Config.
Import AIService.

(** A [Partial<APIConfig>]: each member is there or not. *)
Record PartialConfig : Type := {
  new_apiKey : option jsstring;
  new_baseUrl : option jsstring
}.

(** [{ ...this.config, ...newConfig }]. *)
Definition merge (config : APIConfig) (newConfig : PartialConfig) : APIConfig :=
  {| apiKey := match new_apiKey newConfig with
               | Some k => k
               | None => apiKey config
               end;
     baseUrl := match new_baseUrl newConfig with
                | Some u => u
                | None => baseUrl config
                end |}.

End Config.

(* ===================================================================== *)
(** ** The configuration panel ([AIConfig]) *)
(* ===================================================================== *)

Module AIConfig.

Inductive TestResult : Type := success | error.

(** The four [useState] cells of the panel. *)
Record Form : Type := {
  apiKey : jsstring;
  isTesting : bool;
  testResult : option TestResult;
  errorMessage : jsstring
}.

(** The panel with what it acts on: the configuration of the service, the
    calls of the [onConfigUpdate] callback so far (oldest first), the
    connectivity tests it awaits. *)
Record Panel : Type := {
  form : Form;
  service : AIService.APIConfig;
  updates : list bool;
  awaited : nat
}.

Definition initial_form : Form :=
  {| apiKey := []; isTesting := false; testResult := None; errorMessage := [] |}.

Definition initial_panel : Panel :=
  {| form := initial_form; service := AIService.initial_config;
     updates := []; awaited := 0 |}.

(** [handleTestConnection], up to the [await]. [snap] is the form as the
    handler captured it. *)
Definition handleTestConnection (snap : Form) (p : Panel) : Panel :=
  if JsString.eqb (JsString.trim (apiKey snap)) [] then
    {| form := {| apiKey := apiKey (form p); isTesting := isTesting (form p);
                  testResult := testResult (form p);
                  errorMessage := str "Please enter an API key" |};
       service := service p; updates := updates p; awaited := awaited p |}
  else
    {| form := {| apiKey := apiKey (form p); isTesting := true;
                  testResult := None; errorMessage := [] |};
       service := AIService.updateConfig (service p) (JsString.trim (apiKey snap));
       updates := updates p;
       awaited := S (awaited p) |}.

(** [handleTestConnection], from the moment [testConnection()] settles: the
    rest of the [try] block or the [catch] block, then the [finally] block. *)
Definition test_settled (r : result bool) (p : Panel) : Panel :=
  match r with
  | Ok true =>
      {| form := {| apiKey := apiKey (form p); isTesting := false;
                    testResult := Some success;
                    errorMessage := errorMessage (form p) |};
         service := service p; updates := updates p ++ [true];
         awaited := pred (awaited p) |}
  | Ok false =>
      {| form := {| apiKey := apiKey (form p); isTesting := false;
                    testResult := Some error;
                    errorMessage := str "Connection failed. Please check your API key." |};
         service := service p; updates := updates p;
         awaited := pred (awaited p) |}
  | Throw e =>
      {| form := {| apiKey := apiKey (form p); isTesting := false;
                    testResult := Some error;
                    errorMessage := GameInterface.message_of e |};
         service := service p; updates := updates p;
         awaited := pred (awaited p) |}
  end.

(** [handleSkip]. *)
Definition handleSkip (p : Panel) : Panel :=
  {| form := form p; service := service p; updates := updates p ++ [true];
     awaited := awaited p |}.

(** [handleKeyPress] for the key named [key]. *)
Definition handleKeyPress (snap : Form) (key : jsstring) (p : Panel) : Panel :=
  if JsString.eqb key (str "Enter") && negb (isTesting snap)
     && negb (JsString.eqb (JsString.trim (apiKey snap)) [])
  then handleTestConnection snap p
  else p.

(** [setApiKey(e.target.value)]. *)
Definition setApiKey (value : jsstring) (p : Panel) : Panel :=
  {| form := {| apiKey := value; isTesting := isTesting (form p);
                testResult := testResult (form p);
                errorMessage := errorMessage (form p) |};
     service := service p; updates := updates p; awaited := awaited p |}.

End AIConfig.

(* ===================================================================== *)
(** ** More vocabulary *)
(* ===================================================================== *)

Module MoreProps.
Import Json JsonParse AIService GameInterface Boundary Props.

(** A choice that needs no repair: a non-empty string id and a non-empty
    string text of at most 35 code units, and nothing else. *)
Definition conformant_choice (c : json) : Prop :=
  exists i t, c = choice_object (JStr i) (JStr t)
              /\ i <> [] /\ t <> [] /\ length t <= 35.

(** An event that empties the transcript: the restart button, or the choice
    that reads "Restart adventure". *)
Definition restarts (ev : Event) : bool :=
  match ev with
  | RestartClicked => true
  | ChoiceClicked choice _ => JsString.eqb (text choice) (str "Restart adventure")
  | _ => false
  end.

(** [s] holds no line feed. *)
Definition one_line (s : jsstring) : Prop := ~ In 10%N s.

(** A payload with a null among five entries, at the fifth place and at the
    first. *)
Definition sample_null_fifth : json :=
  payload_object (JStr (str "A cold wind."))
    [sample_entry; sample_entry; sample_entry; sample_entry; JNull].

Definition sample_null_first : json :=
  payload_object (JStr (str "A cold wind.")) [JNull; sample_entry].

(** A reply whose text wraps a payload in prose and a code fence. *)
Definition sample_wrapped_text : jsstring :=
  str "Here you go: ```json " ++ fallback3 ++ str " ``` Enjoy!".

(** The connectivity test settled with the answer [true]. *)
Definition answered_true (r : result bool) : bool :=
  match r with
  | Ok true => true
  | _ => false
  end.

(** A success response whose body carries [text] as its text member. *)
Definition reply_with_text (body : jsstring) : FetchOutcome :=
  Response 200 (str "OK") body.

(** The backend answers in prose, with no JSON at all. *)
Definition sample_prose_text : jsstring :=
  str "I am sorry, I cannot continue this story.".

Definition sample_prose_reply : FetchOutcome := reply_with_text (quoted
"{~candidates~:[{~content~:{~parts~:[{~text~:~I am sorry, I cannot continue this story.~}]}}]}").

(** The backend answers with an empty story and no choices. *)
Definition sample_shapeless_text : jsstring :=
  quoted "{~story~: ~~, ~choices~: []}".

Definition sample_shapeless_reply : FetchOutcome := reply_with_text (quoted
"{~candidates~:[{~content~:{~parts~:[{~text~:~{\~story\~: \~\~, \~choices\~: []}~}]}}]}").

(** The backend answers with a story and three choices. *)
Definition sample_three_text : jsstring :=
  quoted "{~story~: ~A door.~, ~choices~: [~Open~, ~Knock~, ~Leave~]}".

Definition sample_three_reply : FetchOutcome := reply_with_text (quoted
"{~candidates~:[{~content~:{~parts~:[{~text~:~{\~story\~: \~A door.\~, \~choices\~: [\~Open\~, \~Knock\~, \~Leave\~]}~}]}}]}").

(** Four choices that need no repair. *)
Definition sample_conformant : list json :=
  [ choice_object (JStr (str "1")) (JStr (str "Open the door"));
    choice_object (JStr (str "2")) (JStr (str "Knock"));
    choice_object (JStr (str "a")) (JStr (str "Leave"));
    choice_object (JStr (str "4")) (JStr (str "Wait")) ].

(** The sample game after one more turn: the player has picked "Look
    around" and the narrator has answered. *)
Definition sample_played : Session :=
  run JsString.ascii_upper
      [ ChoiceClicked look_around None; Resumed 0 (Story (Ok retry_response)) ]
      sample_idle.

Definition demo_choice : GameChoice :=
  {| id := str "3"; text := str "Continue with demo mode" |}.

(** The sample game with "go north  " typed in the input line. *)
Definition sample_typing : Session :=
  step JsString.ascii_upper (InputChanged (str "go north  ")) sample_idle.

(** The initial session with a topic typed in. *)
Definition sample_topic : Session :=
  step JsString.ascii_upper (TopicChanged (str "lost cave")) initial_session.

(** The form of the panel with a key typed in, and with blanks only. *)
Definition sample_form : AIConfig.Form :=
  {| AIConfig.apiKey := str " AIzaSy-sample-key ";
     AIConfig.isTesting := false;
     AIConfig.testResult := None;
     AIConfig.errorMessage := [] |}.

Definition sample_blank_form : AIConfig.Form :=
  {| AIConfig.apiKey := str "   ";
     AIConfig.isTesting := false;
     AIConfig.testResult := None;
     AIConfig.errorMessage := [] |}.

(** The id of an entry, when present, is a string or [null]. *)
Definition id_is_string (c : json) : bool :=
  match field c (str "id") with
  | None | Some JNull | Some (JStr _) => true
  | _ => false
  end.

(** A reply whose payload has a [null] as the first of two choices, the
    payload of [sample_null_first]. *)
Definition sample_null_reply : FetchOutcome := reply_with_text (quoted
"{~candidates~:[{~content~:{~parts~:[{~text~:~{\~story\~: \~A cold wind.\~, \~choices\~: [null, {\~id\~: \~1\~, \~text\~: \~Open the door\~}]}~}]}}]}").

(** The state the handler of [startGame] captured in the sample game. *)
Definition sample_start_snap : Component :=
  ui (run JsString.ascii_upper (removelast sample_start) initial_session).

End MoreProps.

(* ===================================================================== *)
(** ** Facts about strings and lists *)
(* ===================================================================== *)

Lemma eqb_nil_false (s : jsstring) : s <> [] -> JsString.eqb s [] = false.
Proof.
  destruct s; simpl; [intro H; exfalso; apply H|]; reflexivity.
Qed.

Lemma eqb_refl (s : jsstring) : JsString.eqb s s = true.
Proof.
  induction s as [|c s IH]; simpl; [reflexivity|].
  rewrite N.eqb_refl. exact IH.
Qed.

Lemma eqb_eq (a b : jsstring) : JsString.eqb a b = true <-> a = b.
Proof.
  split; [|intros ->; apply eqb_refl].
  revert b; induction a as [|x a IH]; intros [|y b] H; simpl in H;
    try reflexivity; try discriminate.
  apply andb_true_iff in H as [Hxy Hab].
  apply N.eqb_eq in Hxy. f_equal; [exact Hxy | apply IH, Hab].
Qed.

(* ===================================================================== *)
(** ** The normaliser *)
(* ===================================================================== *)

Module NormalizeFacts.
Import Json JsonParse AIService Props.

Section WithRuntime.
Context (R : Runtime).

Lemma clip_string (t : jsstring) (limit keep : nat) :
  clip R (JStr t) limit keep = Ok (JStr (clipped t limit keep)).
Proof.
  unfold clip, length_gt, clipped; simpl.
  destruct (limit <? length t); reflexivity.
Qed.

Lemma get_not_null (v : json) (k : jsstring) :
  v <> JNull -> get v k = Ok (field v k).
Proof.
  destruct v; intro H; try reflexivity. now contradiction H.
Qed.

Lemma choice_like_not_null (c : json) : choice_like c = true -> c <> JNull.
Proof.
  intros H ->. discriminate H.
Qed.

Lemma text_or_label_truthy (c : json) (index : nat) :
  choice_like c = true ->
  match field c (str "text") with
  | Some t => if truthy R (field c (str "text")) then t
              else JStr (option_label (index + 1))
  | None => JStr (option_label (index + 1))
  end = JStr (text_or_label c index).
Proof.
  unfold choice_like, text_or_label.
  destruct c; try discriminate; simpl; try reflexivity.
  destruct (lookup (str "text") members) as [[| | | t | |]|];
    try discriminate; simpl; try reflexivity.
  destruct (JsString.eqb t []); reflexivity.
Qed.

Lemma validChoice_like (c : json) (index : nat) :
  choice_like c = true -> validChoice R c index = Ok (repaired R c index).
Proof.
  intro H. unfold validChoice, repaired, id_or_position.
  rewrite !get_not_null by (apply choice_like_not_null, H).
  cbn [bind]. rewrite (text_or_label_truthy c index H), clip_string.
  cbn [bind]. destruct (field c (str "id")); reflexivity.
Qed.

Lemma map_choices_like (cs : list json) (index : nat) :
  Forall (fun c => choice_like c = true) cs ->
  map_choices R cs index = Ok (repaired_from R cs index).
Proof.
  intro H; revert index; induction H as [|c cs Hc _ IH]; intro index; simpl.
  - reflexivity.
  - rewrite (validChoice_like c index Hc). cbn [bind].
    rewrite IH. reflexivity.
Qed.

Lemma repaired_from_length (cs : list json) (index : nat) :
  length (repaired_from R cs index) = length cs.
Proof.
  revert index; induction cs as [|c cs IH]; intro index; simpl;
    [reflexivity | now rewrite IH].
Qed.

Lemma repaired_from_nth (cs : list json) (index i : nat) (c : json) :
  nth_error cs i = Some c ->
  nth_error (repaired_from R cs index) i = Some (repaired R c (index + i)).
Proof.
  revert index i; induction cs as [|x cs IH]; intros index [|i] H;
    simpl in *; try discriminate.
  - injection H as ->. now rewrite Nat.add_0_r.
  - rewrite (IH (index + 1) i H). do 2 f_equal. lia.
Qed.

End WithRuntime.

(** *** Padding and trimming *)

Lemma four_choices_spec (cs : list json) :
  four_choices cs
  = firstn 4 cs ++ map pushed_choice (seq (length cs) (4 - length cs)).
Proof.
  destruct cs as [|a [|b [|c [|d [|e rest]]]]]; reflexivity.
Qed.

Lemma four_choices_length (cs : list json) : length (four_choices cs) = 4.
Proof.
  destruct cs as [|a [|b [|c [|d [|e rest]]]]]; reflexivity.
Qed.

Lemma pushed_choice_like (n : nat) : choice_like (pushed_choice n) = true.
Proof. reflexivity. Qed.

Lemma four_choices_like (cs : list json) :
  Forall (fun c => choice_like c = true) cs ->
  Forall (fun c => choice_like c = true) (four_choices cs).
Proof.
  intro H. rewrite four_choices_spec. apply Forall_app; split.
  - apply Forall_forall; intros c Hc.
    rewrite Forall_forall in H. apply H.
    rewrite <- (firstn_skipn 4 cs). apply in_or_app; left; exact Hc.
  - apply Forall_forall; intros c Hc.
    apply in_map_iff in Hc as [n [<- _]]. apply pushed_choice_like.
Qed.

(** What the normaliser returns on a payload with a non-empty story string
    and an array of choices. *)
Lemma normalize_like (R : Runtime) (parsed : json) (s : jsstring) (cs : list json) :
  field parsed (str "story") = Some (JStr s) ->
  s <> [] ->
  field parsed (str "choices") = Some (JArr cs) ->
  Forall (fun c => choice_like c = true) cs ->
  normalize R parsed
  = Ok (payload_object (JStr (clipped s 400 380))
                       (repaired_from R (four_choices cs) 0)).
Proof.
  intros Hs Hne Hc Hlike. unfold normalize.
  assert (Hnn : parsed <> JNull) by (intros ->; discriminate Hs).
  rewrite !get_not_null by exact Hnn. cbn [bind]. rewrite Hs, Hc.
  cbn [truthy]. rewrite (eqb_nil_false s Hne). cbn [negb].
  rewrite clip_string. cbn [bind].
  rewrite (map_choices_like R _ 0 (four_choices_like cs Hlike)). reflexivity.
Qed.

(** Whatever the entries of the array are, a payload that the normaliser
    returns has four choices. *)
Lemma map_choices_length (R : Runtime) (cs out : list json) (index : nat) :
  map_choices R cs index = Ok out -> length out = length cs.
Proof.
  revert out index; induction cs as [|c cs IH]; intros out index H; simpl in H.
  - injection H as <-. reflexivity.
  - destruct (validChoice R c index) as [c'|e]; [|discriminate]. cbn [bind] in H.
    destruct (map_choices R cs (index + 1)) as [rest|e] eqn:Hrest; [|discriminate].
    cbn [bind] in H. injection H as <-. simpl. f_equal. now apply (IH rest (index + 1)).
Qed.

Lemma normalize_four_choices (R : Runtime) (parsed v : json) :
  normalize R parsed = Ok v ->
  exists story' out, v = payload_object story' out /\ length out = 4.
Proof.
  unfold normalize. intro H.
  destruct (get parsed (str "story")) as [story|e]; [|discriminate]. cbn [bind] in H.
  destruct (get parsed (str "choices")) as [choices|e]; [|discriminate]. cbn [bind] in H.
  destruct story as [story|]; [|discriminate].
  destruct choices as [[| | | | cs |]|]; try discriminate.
  destruct (truthy R (Some story)); [|discriminate].
  destruct (clip R story 400 380) as [story'|e]; [|discriminate]. cbn [bind] in H.
  destruct (map_choices R (four_choices cs) 0) as [out|e] eqn:Hout; [|discriminate].
  cbn [bind] in H. injection H as <-.
  exists story', out. split; [reflexivity|].
  rewrite (map_choices_length R _ _ _ Hout). apply four_choices_length.
Qed.

End NormalizeFacts.

Import Json JsonParse AIService GameInterface Boundary Props NormalizeFacts.

Lemma four_choices_nth_original (cs : list json) (i : nat) (c : json) :
  i < 4 -> nth_error cs i = Some c -> nth_error (four_choices cs) i = Some c.
Proof.
  intros Hi H.
  destruct cs as [|x0 [|x1 [|x2 [|x3 [|x4 rest]]]]];
    destruct i as [|[|[|[|i]]]]; simpl in *; try discriminate; try lia; exact H.
Qed.

Lemma four_choices_nth_default (cs : list json) (i : nat) :
  length cs <= i < 4 -> nth_error (four_choices cs) i = Some (pushed_choice i).
Proof.
  intros [Hlo Hhi].
  destruct cs as [|x0 [|x1 [|x2 [|x3 [|x4 rest]]]]];
    destruct i as [|[|[|[|i]]]]; simpl in *; try lia; reflexivity.
Qed.

Lemma four_choices_nth_bound (cs : list json) (i : nat) (c : json) :
  nth_error (four_choices cs) i = Some c -> i < 4.
Proof.
  intro H. rewrite <- (four_choices_length cs).
  apply nth_error_Some. rewrite H. discriminate.
Qed.

Lemma label_fits (i : nat) :
  i < 4 -> clipped (option_label (i + 1)) 35 32 = option_label (i + 1).
Proof.
  intro Hi. destruct i as [|[|[|[|i]]]]; try lia; reflexivity.
Qed.

Lemma clipped_long (t : jsstring) (limit keep : nat) :
  limit < length t -> clipped t limit keep = firstn keep t ++ str "...".
Proof.
  intro H. unfold clipped.
  destruct (Nat.ltb_spec limit (length t)); [reflexivity | lia].
Qed.

Lemma clipped_short (t : jsstring) (limit keep : nat) :
  length t <= limit -> clipped t limit keep = t.
Proof.
  intro H. unfold clipped.
  destruct (Nat.ltb_spec limit (length t)); [lia | reflexivity].
Qed.

Lemma cut_length (t : jsstring) (keep : nat) :
  keep <= length t -> length (firstn keep t ++ str "...") = keep + 3.
Proof.
  intro H. rewrite length_app, firstn_length_le by exact H. reflexivity.
Qed.

(** C6. A parsed payload with a non-empty story string of length [L] and an
    array of choices is normalised without failure; the story of the result
    has at most 400 code units; when [L > 400] it is the first 380 code units
    of the story followed by ["..."], 383 code units in all; when [L <= 400]
    it is the story unchanged. *)
Theorem story_length_enforced (R : Runtime) (parsed : json) (s : jsstring)
  (cs : list json) :
  field parsed (str "story") = Some (JStr s) ->
  s <> [] ->
  field parsed (str "choices") = Some (JArr cs) ->
  Forall (fun c => choice_like c = true) cs ->
  exists story' out,
    normalize R parsed = Ok (payload_object (JStr story') out)
    /\ length story' <= 400
    /\ (400 < length s ->
        story' = firstn 380 s ++ str "..." /\ length story' = 383)
    /\ (length s <= 400 -> story' = s).
Proof.
  intros Hs Hne Hc Hlike.
  exists (clipped s 400 380), (repaired_from R (four_choices cs) 0).
  split; [apply normalize_like; assumption|].
  destruct (Nat.le_gt_cases (length s) 400) as [Hshort | Hlong].
  - rewrite (clipped_short s 400 380 Hshort).
    split; [exact Hshort|]. split; [intro H; lia | reflexivity].
  - rewrite (clipped_long s 400 380 Hlong).
    assert (Hlen : length (firstn 380 s ++ str "...") = 383)
      by (rewrite cut_length; lia).
    split; [lia|]. split; [intros _; split; [reflexivity | exact Hlen] | lia].
Qed.

Lemma repaired_conformant (R : Runtime) (c : json) (i : nat) (id t : jsstring) :
  field c (str "id") = Some (JStr id) -> id <> [] ->
  field c (str "text") = Some (JStr t) -> t <> [] -> length t <= 35 ->
  repaired R c i = choice_object (JStr id) (JStr t).
Proof.
  intros Hid Hidne Ht Htne Hlen.
  unfold repaired, id_or_position, text_or_label.
  rewrite Hid, Ht. cbn [truthy].
  rewrite (eqb_nil_false id Hidne), (eqb_nil_false t Htne). cbn [negb].
  now rewrite clipped_short.
Qed.

Lemma repaired_pushed (R : Runtime) (i : nat) :
  i < 4 ->
  exists d, nth_error defaultChoices i = Some d
            /\ repaired R (pushed_choice i) i
               = choice_object (JStr (JsString.of_nat (i + 1))) (JStr d).
Proof.
  intro Hi. destruct i as [|[|[|[|i]]]]; try lia;
    eexists; split; reflexivity.
Qed.

(** C7. In the normalised payload, choice number [N] (counting from one) of
    the four has: for id, its 1-based position as a string when the entry has
    no id; for text, ["Option N"] when the entry has no text or an empty one,
    the first 32 code units followed by ["..."], 35 code units in all, when
    the text is longer than 35, and the text unchanged when it is not empty
    and at most 35 long. *)
Theorem final_choices_repaired (R : Runtime) (parsed : json) (s : jsstring)
  (cs : list json) :
  field parsed (str "story") = Some (JStr s) ->
  s <> [] ->
  field parsed (str "choices") = Some (JArr cs) ->
  Forall (fun c => choice_like c = true) cs ->
  exists story' out,
    normalize R parsed = Ok (payload_object story' out)
    /\ length out = 4
    /\ forall i c, nth_error (four_choices cs) i = Some c ->
         exists id' text',
           nth_error out i = Some (choice_object id' (JStr text'))
           /\ (field c (str "id") = None -> id' = JStr (JsString.of_nat (i + 1)))
           /\ (field c (str "text") = None \/ field c (str "text") = Some (JStr []) ->
               text' = str "Option " ++ JsString.of_nat (i + 1))
           /\ (forall t, field c (str "text") = Some (JStr t) -> 35 < length t ->
               text' = firstn 32 t ++ str "..." /\ length text' = 35)
           /\ (forall t, field c (str "text") = Some (JStr t) -> t <> [] ->
               length t <= 35 -> text' = t).
Proof.
  intros Hs Hne Hc Hlike.
  exists (JStr (clipped s 400 380)), (repaired_from R (four_choices cs) 0).
  split; [apply normalize_like; assumption|].
  split; [now rewrite repaired_from_length, four_choices_length|].
  intros i c Hnth.
  pose proof (four_choices_nth_bound cs i c Hnth) as Hi.
  exists (id_or_position R c i), (clipped (text_or_label c i) 35 32).
  split; [exact (repaired_from_nth R (four_choices cs) 0 i c Hnth)|].
  unfold id_or_position, text_or_label.
  split; [intros ->; reflexivity|]. split; [|split].
  - intros [-> | ->]; apply (label_fits i Hi).
  - intros t -> Hlong.
    assert (Htne : t <> []) by (intros ->; simpl in Hlong; lia).
    rewrite (eqb_nil_false t Htne), (clipped_long t 35 32 Hlong).
    split; [reflexivity | rewrite cut_length; lia].
  - intros t -> Htne Hlen.
    rewrite (eqb_nil_false t Htne). now apply clipped_short.
Qed.

Lemma story_length_enforced_witness :
  exists story' out,
    normalize exact_runtime sample_payload = Ok (payload_object (JStr story') out)
    /\ length story' <= 400
    /\ (400 < length sample_long_story ->
        story' = firstn 380 sample_long_story ++ str "..." /\ length story' = 383)
    /\ (length sample_long_story <= 400 -> story' = sample_long_story).
Proof.
  apply (story_length_enforced exact_runtime sample_payload sample_long_story
           [sample_entry]);
    [reflexivity | discriminate | reflexivity | repeat constructor].
Defined.

Lemma final_choices_repaired_witness :
  exists story' out,
    normalize exact_runtime sample_payload = Ok (payload_object story' out)
    /\ length out = 4.
Proof.
  destruct (final_choices_repaired exact_runtime sample_payload sample_long_story
              [sample_entry]) as [story' [out [H [Hlen _]]]];
    [reflexivity | discriminate | reflexivity | repeat constructor |].
  exists story', out. split; [exact H | exact Hlen].
Defined.

(* ===================================================================== *)
(** ** The fallback pool *)
(* ===================================================================== *)

(** The invariants of a concrete payload, by computation. *)
Ltac check_valid_payload :=
  unfold valid_payload; cbn [story choices text];
  split; [discriminate|];
  split; [apply Nat.leb_le; vm_compute; reflexivity|];
  split; [reflexivity|];
  repeat (apply Forall_cons; [apply Nat.leb_le; vm_compute; reflexivity|]);
  apply Forall_nil.

Ltac check_pool_entry :=
  eexists; eexists;
  split; [vm_compute; reflexivity|];
  split; [vm_compute; reflexivity|];
  split; [check_valid_payload | intro R; vm_compute; reflexivity].

(** C9. The pool holds five payloads. Each parses, is a payload at the type
    of the component, has a non-empty story of at most 400 code units and
    exactly four choices with texts of at most 35 code units, and is left as
    it is by the normaliser. *)
Theorem fallback_pool_valid :
  5 <= length fallbacks
  /\ Forall (fun f =>
       exists v p,
         JSON_parse f = Some v
         /\ to_AIResponse v = Some p
         /\ valid_payload p
         /\ forall R, normalize R v = Ok v)
     fallbacks.
Proof.
  split; [simpl; lia|].
  unfold fallbacks.
  repeat (apply Forall_cons; [check_pool_entry|]).
  apply Forall_nil.
Qed.

Lemma getFallbackResponse_in (draw : nat) : In (getFallbackResponse draw) fallbacks.
Proof.
  unfold getFallbackResponse. apply nth_In.
  apply Nat.mod_upper_bound. discriminate.
Qed.

Lemma getFallbackResponse_cases (draw : nat) :
  getFallbackResponse draw = fallback1 \/ getFallbackResponse draw = fallback2
  \/ getFallbackResponse draw = fallback3 \/ getFallbackResponse draw = fallback4
  \/ getFallbackResponse draw = fallback5.
Proof.
  pose proof (getFallbackResponse_in draw) as H. simpl in H.
  intuition congruence.
Qed.

(* ===================================================================== *)
(** ** The generation client *)
(* ===================================================================== *)

Lemma makeAPIRequest_try_fails (R : Runtime) (reply : FetchOutcome) :
  transport_failure R reply -> exists e, makeAPIRequest_try R reply = Throw e.
Proof.
  intros [detail | status statusText body Hok | status statusText body Hok Htext];
    unfold makeAPIRequest_try.
  - eexists; reflexivity.
  - rewrite Hok. eexists; reflexivity.
  - rewrite Hok. cbn [negb]. unfold text_member in Htext.
    destruct (JSON_parse body) as [data|]; [|eexists; reflexivity].
    destruct (candidate_text data) as [[t|]|e]; cbn [bind];
      try (eexists; reflexivity).
    destruct (truthy R (Some t)); [discriminate | eexists; reflexivity].
Qed.

Lemma makeAPIRequest_failure (R : Runtime) (reply : FetchOutcome) (draw : nat) :
  transport_failure R reply ->
  makeAPIRequest R reply draw = Ok (JStr (getFallbackResponse draw)).
Proof.
  intro H. destruct (makeAPIRequest_try_fails R reply H) as [e He].
  unfold makeAPIRequest. now rewrite He.
Qed.

(** The promise of [makeAPIRequest] is never rejected. *)
Lemma makeAPIRequest_total (R : Runtime) (reply : FetchOutcome) (draw : nat) :
  exists v, makeAPIRequest R reply draw = Ok v.
Proof.
  unfold makeAPIRequest.
  destruct (makeAPIRequest_try R reply); eexists; reflexivity.
Qed.

(** C1, as the code has it. When the transport fails, the status is not a
    success or the response lacks the text member, the call does not fail:
    it returns, as if it were the reply, one of the five texts of the
    fallback pool. *)
Theorem generation_failure_returns_fallback (R : Runtime) (reply : FetchOutcome)
  (draw : nat) :
  transport_failure R reply ->
  makeAPIRequest R reply draw = Ok (JStr (getFallbackResponse draw))
  /\ In (getFallbackResponse draw) fallbacks.
Proof.
  intro H. split.
  - now apply makeAPIRequest_failure.
  - apply getFallbackResponse_in.
Qed.

Lemma generation_failure_returns_fallback_witness :
  transport_failure exact_runtime sample_server_error
  /\ makeAPIRequest exact_runtime sample_server_error 7
     = Ok (JStr (getFallbackResponse 7))
  /\ In (getFallbackResponse 7) fallbacks.
Proof.
  assert (H : transport_failure exact_runtime sample_server_error)
    by (apply status_fails; reflexivity).
  split; [exact H|].
  exact (generation_failure_returns_fallback exact_runtime sample_server_error 7 H).
Defined.

(** C1 as stated fails: on an HTTP 500 the call is fulfilled, with the first
    text of the pool, where the claim has it fail with an error. *)
Lemma generation_failure_is_swallowed :
  transport_failure exact_runtime sample_server_error
  /\ makeAPIRequest exact_runtime sample_server_error 0 = Ok (JStr fallback1)
  /\ forall e, makeAPIRequest exact_runtime sample_server_error 0 <> Throw e.
Proof.
  split; [apply status_fails; reflexivity|].
  split; [reflexivity|].
  intros e H. discriminate H.
Qed.

(* ===================================================================== *)
(** ** The connectivity test *)
(* ===================================================================== *)

(** [testConnection] never raises. *)
Lemma testConnection_total (R : Runtime) (reply : FetchOutcome) (draw : nat) :
  exists b, testConnection R reply draw = Ok b.
Proof.
  unfold testConnection.
  match goal with
  | |- exists b, try_catch ?body _ = _ => destruct body; eexists; reflexivity
  end.
Qed.

(** A reply without a brace-delimited part, or whose brace-delimited part is
    not JSON, makes the test answer [false]. *)
Lemma testConnection_parse_failure (R : Runtime) (reply : FetchOutcome)
  (draw : nat) (text : jsstring) :
  makeAPIRequest R reply draw = Ok (JStr text) ->
  match match_braces text with
  | Some jsonStr => JSON_parse jsonStr = None
  | None => True
  end ->
  testConnection R reply draw = Ok false.
Proof.
  intros Hreq Hparse. unfold testConnection. rewrite Hreq. cbn [bind].
  destruct (match_braces text) as [jsonStr|]; [|reflexivity].
  now rewrite Hparse.
Qed.

(** C4, evaluated. Whenever the generation call fails, the connectivity test
    reads the substituted fallback text as the reply, finds a story and four
    choices in it, and answers [true]. *)
Theorem connection_test_true_on_failure (R : Runtime) (reply : FetchOutcome)
  (draw : nat) :
  transport_failure R reply -> testConnection R reply draw = Ok true.
Proof.
  intro H. unfold testConnection.
  rewrite (makeAPIRequest_failure R reply draw H). cbn [bind].
  destruct (getFallbackResponse_cases draw) as [-> | [-> | [-> | [-> | ->]]]];
    vm_compute; reflexivity.
Qed.

Lemma connection_test_true_on_failure_witness :
  transport_failure exact_runtime sample_offline
  /\ testConnection exact_runtime sample_offline 3 = Ok true.
Proof.
  assert (H : transport_failure exact_runtime sample_offline)
    by apply transport_fails.
  split; [exact H|].
  exact (connection_test_true_on_failure exact_runtime sample_offline 3 H).
Defined.

(* ===================================================================== *)
(** ** The history buffer *)
(* ===================================================================== *)

Lemma slice_last_snoc {A} (n : nat) (items : list A) (x : A) :
  slice_last n items ++ [x] = slice_last (S n) (items ++ [x]).
Proof.
  unfold slice_last. rewrite length_app, skipn_app. simpl length.
  replace (length items + 1 - S n) with (length items - n) by lia.
  replace (length items - n - length items) with 0 by lia.
  reflexivity.
Qed.

Lemma slice_last_length {A} (n : nat) (items : list A) :
  length (slice_last n items) = Nat.min n (length items).
Proof.
  unfold slice_last. rewrite length_skipn. lia.
Qed.

Lemma slice_last_slice_last {A} (n m : nat) (items : list A) :
  n <= m -> slice_last n (slice_last m items) = slice_last n items.
Proof.
  intro H. unfold slice_last. rewrite length_skipn, skipn_skipn.
  f_equal. lia.
Qed.

Lemma history_after_turn (c : Component) (t : Turn) :
  gameHistory (gameState (complete_turn c t))
  = slice_last 10 (gameHistory (gameState c)) ++ [turn_entry t].
Proof.
  unfold complete_turn, story_arrived, turn_entry.
  destruct (JsString.includes _ _ || JsString.includes _ _);
    [destruct (no_error _)|]; reflexivity.
Qed.

(** After one turn or more the buffer is the last eleven entries of all
    that were pushed. *)
Lemma history_after_turns (ts : list Turn) (t : Turn) (c : Component) :
  gameHistory (gameState (complete_turns (ts ++ [t]) c))
  = slice_last 11 (gameHistory (gameState c) ++ map turn_entry (ts ++ [t])).
Proof.
  revert t; induction ts as [|u ts IH] using rev_ind; intro t.
  - simpl. rewrite history_after_turn. apply slice_last_snoc.
  - unfold complete_turns in *. rewrite fold_left_app. simpl fold_left.
    rewrite history_after_turn, (IH u).
    rewrite slice_last_slice_last by lia.
    rewrite slice_last_snoc, (map_app turn_entry (ts ++ [u]) [t]), app_assoc.
    reflexivity.
Qed.

(** C3, evaluated. After [N > 10] completed non-first turns the buffer holds
    eleven entries, not ten: the eleven most recent, in chronological order.
    A push keeps the last ten entries and then appends the new one. *)
Theorem history_holds_eleven (ts : list Turn) (c : Component) :
  10 < length ts ->
  let history := gameHistory (gameState (complete_turns ts c)) in
  length history = 11
  /\ history = slice_last 11 (map turn_entry ts).
Proof.
  intro Hlen. destruct ts as [|t ts] using rev_ind; [simpl in Hlen; lia|].
  clear IHts. cbv zeta. rewrite history_after_turns.
  assert (Heq : slice_last 11 (gameHistory (gameState c) ++ map turn_entry (ts ++ [t]))
                = slice_last 11 (map turn_entry (ts ++ [t]))).
  { unfold slice_last. rewrite length_app, length_map.
    replace (length (gameHistory (gameState c)) + length (ts ++ [t]) - 11)
      with (length (gameHistory (gameState c)) + (length (ts ++ [t]) - 11)) by lia.
    rewrite skipn_app.
    rewrite skipn_all2 by lia.
    replace (length (gameHistory (gameState c)) + (length (ts ++ [t]) - 11)
             - length (gameHistory (gameState c)))
      with (length (ts ++ [t]) - 11) by lia.
    reflexivity. }
  rewrite Heq. split; [|reflexivity].
  rewrite slice_last_length, length_map. lia.
Qed.

Lemma history_holds_eleven_witness :
  10 < length sample_turns
  /\ length (gameHistory (gameState (complete_turns sample_turns initial_component))) = 11
  /\ gameHistory (gameState (complete_turns sample_turns initial_component))
     = slice_last 11 (map turn_entry sample_turns).
Proof.
  assert (H : 10 < length sample_turns) by (vm_compute; lia).
  split; [exact H|].
  exact (history_holds_eleven sample_turns initial_component H).
Defined.

(* ===================================================================== *)
(** ** Turns *)
(* ===================================================================== *)

Lemma remove_nth_last {A} (items : list A) (x : A) :
  remove_nth (length items) (items ++ [x]) = items.
Proof.
  unfold remove_nth.
  rewrite firstn_app, Nat.sub_diag, firstn_all, skipn_all2
    by (rewrite length_app; simpl; lia).
  simpl. now rewrite !app_nil_r.
Qed.

(** A turn from the call of [generateStoryResponse] to the moment its
    service call settles, with nothing in between. *)
Lemma resume_story (snap : Component) (action : jsstring) (first : bool)
  (r : result AIResponse) (s : Session) :
  resume (length (inflight s)) (Story r) (generateStoryResponse snap action first s)
  = {| ui := story_arrived snap action first r
               (setApiError None (setTurn true [] (ui s)));
       config := config s;
       inflight := inflight s |}.
Proof.
  unfold resume, generateStoryResponse, spawn, render. cbn [inflight ui config].
  rewrite nth_error_app2, Nat.sub_diag by lia. cbn [nth_error].
  now rewrite remove_nth_last.
Qed.

Lemma story_arrived_plain (snap : Component) (action : jsstring) (first : bool)
  (r : AIResponse) (c : Component) :
  JsString.includes (story r) (str "offline mode")
  || JsString.includes (story r) (str "fallback") = false ->
  story_arrived snap action first (Ok r) c
  = setTurn false (choices r)
      (if first then addMessage narrator (story r) c
       else addToGameHistory action (story r) (addMessage narrator (story r) c)).
Proof.
  intro H. unfold story_arrived. now rewrite H.
Qed.

(** What the service hands to the component when the generation call has
    returned the fallback text that [draw] selects. *)
Lemma fallback_reply (draw : nat) :
  exists resp,
    fallback_response draw = Some resp
    /\ valid_payload resp
    /\ JsString.includes (story resp) (str "offline mode")
       || JsString.includes (story resp) (str "fallback") = false
    /\ forall R reply draw',
         makeAPIRequest R reply draw = Ok (JStr (getFallbackResponse draw)) ->
         service_reply R reply draw draw' = Some (Ok resp).
Proof.
  unfold fallback_response.
  destruct (getFallbackResponse_cases draw) as [H | [H | [H | [H | H]]]];
    rewrite H;
    (eexists; split; [vm_compute; reflexivity|];
     split;
     [ check_valid_payload
     | split; [vm_compute; reflexivity|];
       intros R reply draw' Hreq;
       unfold service_reply, AIService.generateStoryResponse;
       rewrite Hreq; vm_compute; reflexivity ]).
Qed.

(** C2, as the code has it. When the generation call of a turn fails, the
    service substitutes a payload of the fallback pool and the turn completes
    as any other: one narrator message with the story of that payload is
    appended, the choices are the four of that payload, no error is
    recorded. When the service call itself is rejected, the turn ends with
    the error message, the recorded failure and the four recovery choices. *)
Theorem turn_after_transport_failure (R : Runtime) (reply : FetchOutcome)
  (draw draw' : nat) (snap : Component) (action : jsstring) (first : bool)
  (s : Session) :
  transport_failure R reply ->
  (exists resp,
     service_reply R reply draw draw' = Some (Ok resp)
     /\ fallback_response draw = Some resp
     /\ length (choices resp) = 4
     /\ let s' := resume (length (inflight s)) (Story (Ok resp))
                         (generateStoryResponse snap action first s) in
        messages (gameState (ui s'))
        = messages (gameState (ui s)) ++ [{| type := narrator; content := story resp |}]
        /\ currentChoices (gameState (ui s')) = choices resp
        /\ isWaitingForResponse (gameState (ui s')) = false
        /\ apiError (ui s') = None
        /\ inflight s' = inflight s)
  /\ (forall e,
        let s' := resume (length (inflight s)) (Story (Throw e))
                         (generateStoryResponse snap action first s) in
        messages (gameState (ui s'))
        = messages (gameState (ui s)) ++ [{| type := error; content := engine_error |}]
        /\ currentChoices (gameState (ui s')) = recovery_choices
        /\ isWaitingForResponse (gameState (ui s')) = false
        /\ apiError (ui s') = Some (str "Failed to generate response: " ++ message_of e)
        /\ inflight s' = inflight s).
Proof.
  intro Hfail. split.
  - destruct (fallback_reply draw) as [resp [Hresp [Hvalid [Hplain Hreply]]]].
    exists resp.
    split; [apply Hreply, makeAPIRequest_failure, Hfail|].
    split; [exact Hresp|].
    split; [apply Hvalid|].
    cbv zeta. rewrite resume_story, (story_arrived_plain _ _ _ _ _ Hplain).
    destruct first; repeat split.
  - intro e. cbv zeta. rewrite resume_story.
    destruct e; repeat split.
Qed.

Lemma turn_after_transport_failure_witness :
  transport_failure exact_runtime sample_offline
  /\ exists resp,
       service_reply exact_runtime sample_offline 0 0 = Some (Ok resp)
       /\ fallback_response 0 = Some resp.
Proof.
  assert (H : transport_failure exact_runtime sample_offline)
    by apply transport_fails.
  split; [exact H|].
  destruct (turn_after_transport_failure exact_runtime sample_offline 0 0
              (ui sample_idle) (str "look around") false sample_idle H)
    as [[resp [Hreply [Hresp _]]] _].
  exists resp. split; [exact Hreply | exact Hresp].
Defined.

(** C2 as stated fails: in the sample game the player picks "Look around",
    the network is down, and the turn ends with no error message in the
    transcript, the mode flag off, no error recorded and the four choices of
    the first pool payload on offer. Were the service call itself rejected,
    the mode flag would stay off as well. *)
Lemma transport_failure_shows_no_recovery_menu :
  transport_failure exact_runtime sample_offline
  /\ exists r,
       service_reply exact_runtime sample_offline 0 0 = Some r
       /\ let s' := run JsString.ascii_upper
                        [ChoiceClicked look_around None; Resumed 0 (Story r)]
                        sample_idle in
          filter is_error_message (messages (gameState (ui s'))) = []
          /\ isUsingFallback (ui s') = false
          /\ apiError (ui s') = None
          /\ map text (currentChoices (gameState (ui s')))
             = [ str "Take the glowing path"; str "Follow the dark route";
                 str "Choose the middle way"; str "Step back and observe" ]
          /\ currentChoices (gameState (ui s')) <> recovery_choices
          /\ let rejected := Story (Throw (ErrorObj (str "Failed to fetch"))) in
             isUsingFallback
               (ui (run JsString.ascii_upper
                        [ChoiceClicked look_around None; Resumed 0 rejected]
                        sample_idle)) = false.
Proof.
  split; [apply transport_fails|].
  eexists. split; [vm_compute; reflexivity|].
  vm_compute. repeat split. discriminate.
Qed.

(* ===================================================================== *)
(** ** The guard against overlapping turns *)
(* ===================================================================== *)

(** X28. While a response is awaited, submitting the typed input changes
    nothing (transcript, history, calls in flight: the whole session is as
    it was), and the screen offers no choice button. *)
Theorem input_ignored_while_waiting (toUpperCase : jsstring -> jsstring)
  (s : Session) :
  isWaitingForResponse (gameState (ui s)) = true ->
  step toUpperCase Submitted s = s
  /\ offered_choices (ui s) = [].
Proof.
  intro H. split.
  - unfold step, handleUserInput. rewrite H. now rewrite orb_true_r.
  - unfold offered_choices. rewrite H. cbn [negb]. now rewrite andb_false_r.
Qed.

Lemma input_ignored_while_waiting_witness :
  isWaitingForResponse (gameState (ui sample_early_input)) = true
  /\ step JsString.ascii_upper Submitted sample_early_input = sample_early_input
  /\ offered_choices (ui sample_early_input) = [].
Proof.
  assert (H : isWaitingForResponse (gameState (ui sample_early_input)) = true)
    by reflexivity.
  split; [exact H|].
  exact (input_ignored_while_waiting JsString.ascii_upper sample_early_input H).
Defined.

(* ===================================================================== *)
(** ** "Try again" with nothing to replay *)
(* ===================================================================== *)

Lemma handleChoice_try_again_fresh (snap : Component) (choice : GameChoice)
  (dialog : option jsstring) (s : Session) :
  text choice = str "Try again" ->
  gameHistory (gameState snap) = [] ->
  handleChoice snap choice dialog s
  = generateStoryResponse snap (str "Try again") false
      (render (addMessage user (str "> Try again")) s).
Proof.
  intros Htext Hhist. unfold handleChoice. rewrite Htext, Hhist.
  reflexivity.
Qed.

(** C10. When the player selects the choice whose text is "Try again" and
    the history is empty, no recorded action is replayed: the user message
    ["> Try again"] is appended to the transcript and a generation turn is
    started whose player action is the text ["Try again"] itself. *)
Theorem try_again_with_empty_history (toUpperCase : jsstring -> jsstring)
  (s : Session) (choice : GameChoice) (dialog : option jsstring) :
  text choice = str "Try again" ->
  gameHistory (gameState (ui s)) = [] ->
  let s' := step toUpperCase (ChoiceClicked choice dialog) s in
  messages (gameState (ui s'))
  = messages (gameState (ui s)) ++ [{| type := user; content := str "> Try again" |}]
  /\ inflight s' = inflight s ++ [StoryCall (ui s) (str "Try again") false]
  /\ isWaitingForResponse (gameState (ui s')) = true
  /\ gameHistory (gameState (ui s')) = [].
Proof.
  intros Htext Hhist. cbv zeta. unfold step.
  rewrite (handleChoice_try_again_fresh (ui s) choice dialog s Htext Hhist).
  repeat split. exact Hhist.
Qed.

Lemma try_again_with_empty_history_witness :
  In try_again (offered_choices (ui sample_retry))
  /\ gameHistory (gameState (ui sample_retry)) = []
  /\ let s' := step JsString.ascii_upper (ChoiceClicked try_again None) sample_retry in
     messages (gameState (ui s'))
     = messages (gameState (ui sample_retry))
       ++ [{| type := user; content := str "> Try again" |}]
     /\ inflight s' = inflight sample_retry
                      ++ [StoryCall (ui sample_retry) (str "Try again") false]
     /\ isWaitingForResponse (gameState (ui s')) = true
     /\ gameHistory (gameState (ui s')) = [].
Proof.
  split; [left; reflexivity|].
  split; [reflexivity|].
  exact (try_again_with_empty_history JsString.ascii_upper sample_retry
           try_again None eq_refl eq_refl).
Defined.

(* ===================================================================== *)
(** ** The service as a whole *)
(* ===================================================================== *)

Import MoreProps.

Lemma app_not_nil (a b : jsstring) : b <> [] -> a ++ b <> [].
Proof.
  intros Hb H. apply app_eq_nil in H as [_ H]. now apply Hb.
Qed.

Lemma clip_truthy (R : Runtime) (v v' : json) (limit keep : nat) :
  clip R v limit keep = Ok v' ->
  truthy R (Some v) = true -> truthy R (Some v') = true.
Proof.
  unfold clip. intros H Hv.
  destruct (length_gt R v limit) as [[|]|e]; cbn [bind] in H; try discriminate.
  - destruct (substring0 v keep) as [head|e]; cbn [bind] in H; [|discriminate].
    injection H as <-. cbn [truthy].
    rewrite eqb_nil_false; [reflexivity | apply app_not_nil; discriminate].
  - now injection H as <-.
Qed.

Lemma normalize_story_truthy (R : Runtime) (parsed story' : json) (out : list json) :
  normalize R parsed = Ok (payload_object story' out) ->
  truthy R (Some story') = true.
Proof.
  unfold normalize. intro H.
  destruct (get parsed (str "story")) as [story|e]; [|discriminate]. cbn [bind] in H.
  destruct (get parsed (str "choices")) as [choices|e]; [|discriminate]. cbn [bind] in H.
  destruct story as [story|]; [|discriminate].
  destruct choices as [[| | | | cs |]|]; try discriminate.
  destruct (truthy R (Some story)) eqn:Htruthy; [|discriminate].
  destruct (clip R story 400 380) as [clipped_story|e] eqn:Hclip; [|discriminate].
  cbn [bind] in H.
  destruct (map_choices R (four_choices cs) 0) as [vs|e]; [|discriminate].
  cbn [bind] in H. injection H as <- _.
  exact (clip_truthy R story clipped_story 400 380 Hclip Htruthy).
Qed.

Lemma parse_reply_ok (R : Runtime) (response v : json) :
  parse_reply R response = Ok v -> exists parsed, normalize R parsed = Ok v.
Proof.
  unfold parse_reply. intro H.
  destruct response as [| | | text | |]; try discriminate.
  destruct (match_braces (trim text)) as [jsonStr|]; [|discriminate].
  destruct (JSON_parse jsonStr) as [parsed|]; [|discriminate].
  now exists parsed.
Qed.

(** Every entry of the pool parses to a payload with a non-empty story and
    four choices. *)
Lemma pool_payload (draw : nat) :
  exists s out,
    JSON_parse (getFallbackResponse draw) = Some (payload_object (JStr s) out)
    /\ s <> [] /\ length out = 4.
Proof.
  destruct (getFallbackResponse_cases draw) as [-> | [-> | [-> | [-> | ->]]]];
    (eexists; eexists; split; [vm_compute; reflexivity|];
     split; [discriminate | reflexivity]).
Qed.

(** X1. The service call never fails, whatever the backend does: it always
    returns an object with a truthy story and exactly four choices. *)
Theorem service_always_returns_payload (R : Runtime) (reply : FetchOutcome)
  (draw draw' : nat) :
  exists story' out,
    AIService.generateStoryResponse R reply draw draw' = Ok (payload_object story' out)
    /\ truthy R (Some story') = true
    /\ length out = 4.
Proof.
  unfold AIService.generateStoryResponse.
  destruct (makeAPIRequest_total R reply draw) as [response ->]. cbn [bind].
  destruct (parse_reply R response) as [v|e] eqn:Hparse; cbn [try_catch].
  - destruct (parse_reply_ok R response v Hparse) as [parsed Hnorm].
    destruct (normalize_four_choices R parsed v Hnorm) as [story' [out [-> Hlen]]].
    exists story', out. split; [reflexivity|]. split; [|exact Hlen].
    exact (normalize_story_truthy R parsed story' out Hnorm).
  - destruct (pool_payload draw') as [s [out [-> [Hs Hlen]]]].
    exists (JStr s), out. split; [reflexivity|]. split; [|exact Hlen].
    cbn [truthy]. now rewrite eqb_nil_false.
Qed.

(** Whenever reading the reply throws, the service returns the pool entry
    that its own draw selects. *)
Lemma service_falls_back (R : Runtime) (reply : FetchOutcome) (draw draw' : nat)
  (response : json) (e : exn) :
  makeAPIRequest R reply draw = Ok response ->
  parse_reply R response = Throw e ->
  exists v, JSON_parse (getFallbackResponse draw') = Some v
            /\ AIService.generateStoryResponse R reply draw draw' = Ok v.
Proof.
  intros Hreq Hparse. unfold AIService.generateStoryResponse.
  rewrite Hreq. cbn [bind]. rewrite Hparse. cbn [try_catch].
  destruct (pool_payload draw') as [s [out [-> _]]].
  eexists; split; reflexivity.
Qed.

(** X2. A reply text with no brace-delimited part, or whose brace-delimited
    part is not JSON, is answered with the pool payload that the second
    random draw selects. *)
Theorem reply_without_json_falls_back (R : Runtime) (reply : FetchOutcome)
  (draw draw' : nat) (text : jsstring) :
  makeAPIRequest R reply draw = Ok (JStr text) ->
  match match_braces (trim text) with
  | Some jsonStr => JSON_parse jsonStr = None
  | None => True
  end ->
  exists v, JSON_parse (getFallbackResponse draw') = Some v
            /\ AIService.generateStoryResponse R reply draw draw' = Ok v.
Proof.
  intros Hreq Hbad.
  assert (Hthrow : exists e, parse_reply R (JStr text) = Throw e).
  { unfold parse_reply.
    destruct (match_braces (trim text)) as [jsonStr|]; [|eexists; reflexivity].
    rewrite Hbad. eexists; reflexivity. }
  destruct Hthrow as [e He].
  exact (service_falls_back R reply draw draw' (JStr text) e Hreq He).
Qed.

(** X3. A reply whose JSON has no truthy story (missing, empty, null) or
    whose choices are not an array is answered with a pool payload. *)
Theorem reply_with_wrong_shape_falls_back (R : Runtime) (reply : FetchOutcome)
  (draw draw' : nat) (text jsonStr : jsstring) (parsed : json) :
  makeAPIRequest R reply draw = Ok (JStr text) ->
  match_braces (trim text) = Some jsonStr ->
  JSON_parse jsonStr = Some parsed ->
  truthy R (field parsed (str "story")) = false
  \/ (forall cs, field parsed (str "choices") <> Some (JArr cs)) ->
  exists v, JSON_parse (getFallbackResponse draw') = Some v
            /\ AIService.generateStoryResponse R reply draw draw' = Ok v.
Proof.
  intros Hreq Hmatch Hjson Hshape.
  assert (Hthrow : exists e, parse_reply R (JStr text) = Throw e).
  { unfold parse_reply. rewrite Hmatch, Hjson. unfold normalize.
    destruct parsed as [| | | | |members];
      try (eexists; reflexivity).
    cbn [get bind field] in *.
    destruct (lookup (str "story") members) as [story|];
      destruct (lookup (str "choices") members) as [[| | | | cs |]|];
      try (eexists; reflexivity).
    destruct Hshape as [Hstory | Hchoices].
    - rewrite Hstory. eexists; reflexivity.
    - now contradiction (Hchoices cs). }
  destruct Hthrow as [e He].
  exact (service_falls_back R reply draw draw' (JStr text) e Hreq He).
Qed.

Lemma map_choices_null (R : Runtime) (cs : list json) (index : nat) :
  In JNull cs -> exists e, map_choices R cs index = Throw e.
Proof.
  revert index; induction cs as [|c cs IH]; intros index Hin; [contradiction|].
  simpl. destruct Hin as [-> | Hin].
  - eexists; reflexivity.
  - destruct (validChoice R c index) as [c'|e]; cbn [bind]; [|eexists; reflexivity].
    destruct (IH (index + 1) Hin) as [e ->]. eexists; reflexivity.
Qed.

Lemma four_choices_firstn (cs : list json) :
  4 <= length cs -> four_choices cs = firstn 4 cs.
Proof.
  intro H. rewrite four_choices_spec.
  replace (4 - length cs) with 0 by lia. simpl. apply app_nil_r.
Qed.

Lemma firstn_in_four_choices (cs : list json) (c : json) :
  In c (firstn 4 cs) -> In c (four_choices cs).
Proof.
  intro H. rewrite four_choices_spec. apply in_or_app. now left.
Qed.

(** X4. A [null] among the first four entries of the choices makes the
    normaliser throw, so that the service answers with a pool payload
    instead of repairing the entry. *)
Theorem null_choice_throws (R : Runtime) (parsed : json) (cs : list json) :
  field parsed (str "choices") = Some (JArr cs) ->
  In JNull (firstn 4 cs) ->
  exists e, normalize R parsed = Throw e.
Proof.
  intros Hc Hnull. unfold normalize.
  assert (Hnn : parsed <> JNull) by (intros ->; discriminate Hc).
  rewrite !get_not_null by exact Hnn. cbn [bind]. rewrite Hc.
  destruct (field parsed (str "story")) as [story|]; [|eexists; reflexivity].
  destruct (truthy R (Some story)); [|eexists; reflexivity].
  destruct (clip R story 400 380) as [story'|e]; cbn [bind]; [|eexists; reflexivity].
  destruct (map_choices_null R (four_choices cs) 0
              (firstn_in_four_choices cs JNull Hnull)) as [e ->].
  eexists; reflexivity.
Qed.

(** X5. Entries after the fourth are never read: two payloads with the same
    story whose choices agree on the first four entries are normalised to
    the same result, whatever follows. *)
Theorem entries_after_fourth_ignored (R : Runtime) (parsed parsed' : json)
  (cs cs' : list json) :
  field parsed (str "story") = field parsed' (str "story") ->
  field parsed (str "choices") = Some (JArr cs) ->
  field parsed' (str "choices") = Some (JArr cs') ->
  4 <= length cs -> 4 <= length cs' ->
  firstn 4 cs = firstn 4 cs' ->
  normalize R parsed = normalize R parsed'.
Proof.
  intros Hs Hc Hc' Hlen Hlen' Hsame. unfold normalize.
  assert (Hnn : parsed <> JNull) by (intros ->; discriminate Hc).
  assert (Hnn' : parsed' <> JNull) by (intros ->; discriminate Hc').
  rewrite !get_not_null by assumption. cbn [bind].
  rewrite Hs, Hc, Hc', (four_choices_firstn cs Hlen), (four_choices_firstn cs' Hlen'), Hsame.
  reflexivity.
Qed.

(** X6. When the response is a success and its body has a truthy text
    member, the generation call returns exactly that member; the random draw
    plays no part. *)
Theorem generation_success_returns_text (R : Runtime) (status : nat)
  (statusText body : jsstring) (t : json) (draw : nat) :
  ok status = true ->
  text_member R body = Some t ->
  makeAPIRequest R (Response status statusText body) draw = Ok t.
Proof.
  intros Hok Htext. unfold makeAPIRequest, makeAPIRequest_try.
  rewrite Hok. cbn [negb]. unfold text_member in Htext.
  destruct (JSON_parse body) as [data|]; [|discriminate].
  destruct (candidate_text data) as [[t'|]|e]; try discriminate. cbn [bind].
  destruct (truthy R (Some t')); [|discriminate].
  now injection Htext as ->.
Qed.

(* ===================================================================== *)
(** ** The normaliser, again *)
(* ===================================================================== *)

Lemma clipped_bound (t : jsstring) (limit keep : nat) :
  keep + 3 <= limit -> length (clipped t limit keep) <= limit.
Proof.
  intro H. unfold clipped.
  destruct (Nat.ltb_spec limit (length t)) as [Hlong | Hshort]; [|exact Hshort].
  rewrite cut_length; lia.
Qed.

Lemma clipped_not_nil (t : jsstring) (limit keep : nat) :
  t <> [] -> clipped t limit keep <> [].
Proof.
  intro H. unfold clipped. destruct (limit <? length t); [|exact H].
  apply app_not_nil. discriminate.
Qed.

Lemma conformant_like (c : json) : conformant_choice c -> choice_like c = true.
Proof.
  intros [i [t [-> _]]]. reflexivity.
Qed.

Lemma repaired_from_conformant (R : Runtime) (cs : list json) (index : nat) :
  Forall conformant_choice cs -> repaired_from R cs index = cs.
Proof.
  intro H; revert index; induction H as [|c cs Hc _ IH]; intro index; simpl.
  - reflexivity.
  - rewrite IH. f_equal.
    destruct Hc as [i [t [-> [Hi [Ht Hlen]]]]].
    now apply repaired_conformant.
Qed.

(** X8. A payload that already conforms (a non-empty story of at most 400
    code units, four choices with non-empty ids and non-empty texts of at
    most 35 code units) comes out of the normaliser exactly as it went in. *)
Theorem conformant_payload_unchanged (R : Runtime) (s : jsstring) (cs : list json) :
  s <> [] -> length s <= 400 ->
  length cs = 4 -> Forall conformant_choice cs ->
  normalize R (payload_object (JStr s) cs) = Ok (payload_object (JStr s) cs).
Proof.
  intros Hne Hlen Hfour Hconf.
  rewrite (normalize_like R (payload_object (JStr s) cs) s cs);
    [| reflexivity | exact Hne | reflexivity
     | apply Forall_impl with (2 := Hconf); exact conformant_like ].
  rewrite (clipped_short s 400 380 Hlen).
  unfold four_choices. rewrite Hfour. cbn [Nat.eqb].
  now rewrite repaired_from_conformant.
Qed.

(* ===================================================================== *)
(** ** Finding the JSON in the reply *)
(* ===================================================================== *)

Lemma from_first_some (c : codeunit) (s r : jsstring) :
  from_first c s = Some r ->
  exists pre tl, s = pre ++ c :: tl /\ r = c :: tl /\ ~ In c pre.
Proof.
  revert r; induction s as [|x s IH]; intros r H; simpl in H; [discriminate|].
  destruct (N.eqb_spec x c) as [-> | Hne].
  - injection H as <-. exists [], s. repeat split. intros [].
  - destruct (IH r H) as [pre [tl [-> [-> Hpre]]]].
    exists (x :: pre), tl. repeat split.
    intros [Hx | Hin]; [now apply Hne | now apply Hpre].
Qed.

Lemma from_first_app (c : codeunit) (pre tl : jsstring) :
  ~ In c pre -> from_first c (pre ++ c :: tl) = Some (c :: tl).
Proof.
  induction pre as [|x pre IH]; intro Hpre; simpl.
  - now rewrite N.eqb_refl.
  - destruct (N.eqb_spec x c) as [-> | Hne].
    + exfalso. apply Hpre. now left.
    + apply IH. intro Hin. apply Hpre. now right.
Qed.

(** X9. The text handed to [JSON.parse] is exactly the part of the reply
    from its first opening brace to its last closing brace: prose, code
    fences and anything else around it are dropped, and there is a match
    exactly when an opening brace is followed, somewhere, by a closing one. *)
Theorem match_braces_spec (s m : jsstring) :
  match_braces s = Some m
  <-> exists pre mid post,
        s = pre ++ m ++ post
        /\ m = ch "{" :: mid ++ [ch "}"]
        /\ ~ In (ch "{") pre
        /\ ~ In (ch "}") post.
Proof.
  unfold match_braces. split.
  - intro H.
    destruct (from_first (ch "{") s) as [[|x rest]|] eqn:Hopen; try discriminate.
    destruct (from_first_some _ _ _ Hopen) as [pre [tl [-> [Heq Hpre]]]].
    injection Heq as -> ->.
    destruct (from_first (ch "}") (rev tl)) as [upto|] eqn:Hclose; [|discriminate].
    injection H as <-.
    destruct (from_first_some _ _ _ Hclose) as [p2 [tl2 [Hrev [-> Hp2]]]].
    exists pre, (rev tl2), (rev p2).
    assert (Htl : tl = (rev tl2 ++ [ch "}"]) ++ rev p2).
    { rewrite <- (rev_involutive tl), Hrev, rev_app_distr. reflexivity. }
    repeat split.
    + rewrite Htl. reflexivity.
    + exact Hpre.
    + intro Hin. apply Hp2. now apply in_rev.
  - intros [pre [mid [post [-> [-> [Hpre Hpost]]]]]].
    change ((ch "{" :: mid ++ [ch "}"]) ++ post)
      with (ch "{" :: ((mid ++ [ch "}"]) ++ post)).
    rewrite (from_first_app (ch "{") pre _ Hpre).
    rewrite !rev_app_distr.
    change (rev [ch "}"] ++ rev mid) with (ch "}" :: rev mid).
    rewrite (from_first_app (ch "}") (rev post) (rev mid))
      by (intro Hin; apply Hpost; now apply in_rev).
    simpl rev. now rewrite rev_involutive.
Qed.

(* ===================================================================== *)
(** ** The verdict of the connectivity test *)
(* ===================================================================== *)

(** X10. On a reply that holds a JSON object with a non-empty story string
    and an array of choices, the connectivity test answers whether the array
    has exactly four entries; what the entries are is not looked at. *)
Theorem connection_test_counts_choices (R : Runtime) (reply : FetchOutcome)
  (draw : nat) (text jsonStr s : jsstring) (parsed : json) (cs : list json) :
  makeAPIRequest R reply draw = Ok (JStr text) ->
  match_braces text = Some jsonStr ->
  JSON_parse jsonStr = Some parsed ->
  field parsed (str "story") = Some (JStr s) -> s <> [] ->
  field parsed (str "choices") = Some (JArr cs) ->
  testConnection R reply draw = Ok (length cs =? 4).
Proof.
  intros Hreq Hmatch Hjson Hs Hne Hc. unfold testConnection.
  rewrite Hreq. cbn [bind]. rewrite Hmatch, Hjson.
  assert (Hnn : parsed <> JNull) by (intros ->; discriminate Hs).
  rewrite !get_not_null by exact Hnn. cbn [bind]. rewrite Hs.
  cbn [truthy]. rewrite (eqb_nil_false s Hne). cbn [negb].
  rewrite Hc. reflexivity.
Qed.

(* ===================================================================== *)
(** ** The prompt *)
(* ===================================================================== *)

Lemma slice_last_app {A} (n : nat) (old recent : list A) :
  n <= length recent ->
  GameInterface.slice_last n (old ++ recent) = GameInterface.slice_last n recent.
Proof.
  intro H. unfold slice_last. rewrite length_app, skipn_app.
  rewrite skipn_all2 by lia. simpl. f_equal. lia.
Qed.

(** X11. Only the last two history entries reach the prompt: whatever older
    entries precede them, the prompt is the same. *)
Theorem prompt_uses_last_two_entries (storyTopic : jsstring)
  (old recent : list jsstring) (userAction : jsstring) (isFirstTurn : bool) :
  2 <= length recent ->
  Prompt.createNarratorPrompt storyTopic (old ++ recent) userAction isFirstTurn
  = Prompt.createNarratorPrompt storyTopic recent userAction isFirstTurn.
Proof.
  intro H. unfold Prompt.createNarratorPrompt, Prompt.recentHistory.
  rewrite (slice_last_app 2 old recent H), length_app.
  destruct isFirstTurn; [reflexivity|].
  destruct (Nat.ltb_spec 0 (length old + length recent));
    destruct (Nat.ltb_spec 0 (length recent)); try lia; reflexivity.
Qed.

Lemma prefixb_app (p post : jsstring) : JsString.prefixb p (p ++ post) = true.
Proof.
  induction p as [|x p IH]; simpl; [reflexivity|].
  now rewrite N.eqb_refl, IH.
Qed.

Lemma includes_prefix (s p : jsstring) :
  JsString.prefixb p s = true -> JsString.includes s p = true.
Proof.
  destruct s; simpl; intros ->; reflexivity.
Qed.

Lemma includes_app (pre p post : jsstring) :
  JsString.includes (pre ++ p ++ post) p = true.
Proof.
  induction pre as [|x pre IH].
  - change ([] ++ p ++ post) with (p ++ post).
    apply includes_prefix, prefixb_app.
  - simpl. rewrite IH. apply orb_true_r.
Qed.

(** X12. The topic and, after the first turn, the player's action are put
    into the prompt verbatim. *)
Theorem prompt_embeds_topic_and_action (storyTopic : jsstring)
  (gameHistory : list jsstring) (userAction : jsstring) :
  (forall isFirstTurn,
     JsString.includes
       (Prompt.createNarratorPrompt storyTopic gameHistory userAction isFirstTurn)
       storyTopic = true)
  /\ JsString.includes
       (Prompt.createNarratorPrompt storyTopic gameHistory userAction false)
       userAction = true.
Proof.
  unfold Prompt.createNarratorPrompt, Prompt.basePrompt. split.
  - intros [|]; rewrite <- !app_assoc; apply includes_app.
  - rewrite !app_assoc.
    rewrite <- (app_assoc _ userAction Prompt.action_after_action).
    apply includes_app.
Qed.

(* ===================================================================== *)
(** ** The configuration *)
(* ===================================================================== *)

(** X13. Whatever configuration is installed, the key status is never
    [valid]: it is [invalid] exactly when the key is empty or is the
    placeholder, and [untested] otherwise. Updating the key alone, as the
    component does, is the general update with no base URL. *)
Theorem key_status_never_valid (config : APIConfig) (newConfig : Config.PartialConfig) :
  let config' := Config.merge config newConfig in
  getApiKeyStatus config' <> valid
  /\ (getApiKeyStatus config' = invalid
      <-> AIService.apiKey config' = [] \/ AIService.apiKey config' = unset_key)
  /\ (forall key,
        updateConfig config key
        = Config.merge config {| Config.new_apiKey := Some key;
                                 Config.new_baseUrl := None |}).
Proof.
  cbv zeta. unfold getApiKeyStatus.
  destruct (JsString.eqb (AIService.apiKey (Config.merge config newConfig)) []) eqn:Hempty;
    destruct (JsString.eqb (AIService.apiKey (Config.merge config newConfig)) unset_key)
      eqn:Hunset; cbn [orb];
    (split; [discriminate|]); (split; [|reflexivity]).
  - split; [intros _; left; now apply eqb_eq | reflexivity].
  - split; [intros _; left; now apply eqb_eq | reflexivity].
  - split; [intros _; right; now apply eqb_eq | reflexivity].
  - split; [discriminate|].
    intros [H | H]; apply eqb_eq in H; congruence.
Qed.

(* ===================================================================== *)
(** ** Invariants of the event loop *)
(* ===================================================================== *)

Ltac split_ifs :=
  repeat match goal with
         | |- context [if ?b then _ else _] => destruct b
         end.

(** What one step can do to the history: nothing, empty it, or push one
    entry onto its last ten. *)
Lemma history_step (toUpperCase : jsstring -> jsstring) (ev : Event) (s : Session) :
  gameHistory (gameState (ui (step toUpperCase ev s))) = gameHistory (gameState (ui s))
  \/ gameHistory (gameState (ui (step toUpperCase ev s))) = []
  \/ exists entry,
       gameHistory (gameState (ui (step toUpperCase ev s)))
       = slice_last 10 (gameHistory (gameState (ui s))) ++ [entry].
Proof.
  destruct ev as [| value | value | | choice dialog | | | dialog | i o]; cbn [step].
  - unfold testAPI. destruct (getApiKeyStatus (config s)); left; reflexivity.
  - left; reflexivity.
  - left; reflexivity.
  - unfold startGame. split_ifs;
      first [left; reflexivity | right; left; reflexivity].
  - unfold handleChoice, updateApiKey. destruct dialog; split_ifs;
      first [left; reflexivity | right; left; reflexivity].
  - unfold handleUserInput. split_ifs; left; reflexivity.
  - right; left; reflexivity.
  - unfold updateApiKey. destruct dialog; split_ifs; left; reflexivity.
  - unfold resume.
    destruct (nth_error (inflight s) i) as [[snap action first | snap | k]|];
      destruct o as [| r | r]; try (left; reflexivity).
    + destruct r as [response|e]; [|left; reflexivity].
      unfold story_arrived, render. cbn [ui].
      destruct first; split_ifs;
        first [left; reflexivity | right; right; eexists; reflexivity].
    + destruct k as [| | snap]; destruct r as [[|]|e]; left; reflexivity.
Qed.

Lemma history_bound_step (toUpperCase : jsstring -> jsstring) (ev : Event)
  (s : Session) :
  length (gameHistory (gameState (ui s))) <= 11 ->
  length (gameHistory (gameState (ui (step toUpperCase ev s)))) <= 11.
Proof.
  intro H.
  destruct (history_step toUpperCase ev s) as [-> | [-> | [entry ->]]].
  - exact H.
  - simpl; lia.
  - rewrite length_app, slice_last_length. change (length [entry]) with 1. lia.
Qed.

(** X14. Whatever the player and the backend do, the history never holds
    more than eleven entries. *)
Theorem history_never_exceeds_eleven (toUpperCase : jsstring -> jsstring)
  (evs : list Event) :
  length (gameHistory (gameState (ui (run toUpperCase evs initial_session)))) <= 11.
Proof.
  unfold run.
  assert (H : forall s, length (gameHistory (gameState (ui s))) <= 11 ->
              length (gameHistory (gameState (ui
                (fold_left (fun s ev => step toUpperCase ev s) evs s)))) <= 11).
  { induction evs as [|ev evs IH]; intros s Hs; simpl; [exact Hs|].
    apply IH. now apply history_bound_step. }
  apply H. apply Nat.leb_le. reflexivity.
Qed.

Ltac extends_transcript :=
  cbn [ui gameState messages render spawn generateStoryResponse restartGame
       addMessage addToGameHistory setTurn setGameState setApiError
       setIsUsingFallback setUserInput];
  repeat rewrite <- app_assoc;
  first [ exists []; symmetry; apply app_nil_r | eexists; reflexivity ].

Lemma transcript_step (toUpperCase : jsstring -> jsstring) (ev : Event) (s : Session) :
  restarts ev = false ->
  exists more,
    messages (gameState (ui (step toUpperCase ev s)))
    = messages (gameState (ui s)) ++ more.
Proof.
  intro Hev.
  destruct ev as [| value | value | | choice dialog | | | dialog | i o];
    cbn [step]; try discriminate Hev.
  - unfold testAPI. destruct (getApiKeyStatus (config s)); extends_transcript.
  - extends_transcript.
  - extends_transcript.
  - unfold startGame. split_ifs; extends_transcript.
  - unfold handleChoice, updateApiKey. cbn [restarts] in Hev. rewrite Hev.
    destruct dialog; split_ifs; extends_transcript.
  - unfold handleUserInput. split_ifs; extends_transcript.
  - unfold updateApiKey. destruct dialog; split_ifs; extends_transcript.
  - unfold resume.
    destruct (nth_error (inflight s) i) as [[snap action first | snap | k]|];
      destruct o as [| r | r]; try extends_transcript.
    + unfold story_arrived. destruct r as [response|e]; [|extends_transcript].
      destruct first; split_ifs; extends_transcript.
    + unfold test_arrived. destruct k as [| | snap]; destruct r as [[|]|e];
        extends_transcript.
Qed.

(** X15. The transcript is append-only between restarts: over any sequence
    of events that holds no restart, what was in the transcript stays, in
    place, and new messages only come after it. *)
Theorem transcript_append_only (toUpperCase : jsstring -> jsstring)
  (evs : list Event) (s : Session) :
  Forall (fun ev => restarts ev = false) evs ->
  exists more,
    messages (gameState (ui (run toUpperCase evs s)))
    = messages (gameState (ui s)) ++ more.
Proof.
  intro H; revert s; induction H as [|ev evs Hev _ IH]; intro s.
  - exists []. symmetry. apply app_nil_r.
  - unfold run in *. simpl.
    destruct (IH (step toUpperCase ev s)) as [later ->].
    destruct (transcript_step toUpperCase ev s Hev) as [more ->].
    exists (more ++ later). now rewrite app_assoc.
Qed.

(* ===================================================================== *)
(** ** Restart, replay and the other choices *)
(* ===================================================================== *)

(** X16. A restart cancels nothing: the calls in flight stay in flight, and
    when one of them settles after the restart its narrator message and its
    choices land in the fresh, not yet started game. The error banner and
    the mode flag survive the restart as well. *)
Theorem restart_keeps_calls_in_flight (s : Session) (i : nat) (snap : Component)
  (action : jsstring) (first : bool) (response : AIResponse) :
  nth_error (inflight s) i = Some (StoryCall snap action first) ->
  inflight (restartGame s) = inflight s
  /\ apiError (ui (restartGame s)) = apiError (ui s)
  /\ isUsingFallback (ui (restartGame s)) = isUsingFallback (ui s)
  /\ gameState (ui (restartGame s)) = initial_state
  /\ let s' := resume i (Story (Ok response)) (restartGame s) in
     gameStarted (gameState (ui s')) = false
     /\ messages (gameState (ui s'))
        = [{| type := narrator; content := story response |}]
     /\ currentChoices (gameState (ui s')) = choices response.
Proof.
  intro Hnth. repeat (split; [reflexivity|]).
  cbv zeta. unfold resume. cbn [inflight restartGame render].
  rewrite Hnth. unfold story_arrived, render. cbn [ui].
  destruct first; split_ifs; repeat split.
Qed.

(** X17. What a settled turn does to the history: the first turn and a
    rejected call record nothing; any other turn records exactly one entry,
    the player's action and the narrator's story, after the last ten. *)
Theorem history_bookkeeping (snap : Component) (action : jsstring)
  (r : result AIResponse) (c : Component) :
  (forall e, r = Throw e ->
     forall first, gameHistory (gameState (story_arrived snap action first r c))
                   = gameHistory (gameState c))
  /\ gameHistory (gameState (story_arrived snap action true r c))
     = gameHistory (gameState c)
  /\ (forall response, r = Ok response ->
        gameHistory (gameState (story_arrived snap action false r c))
        = slice_last 10 (gameHistory (gameState c))
          ++ [historyEntry action (story response)]).
Proof.
  split; [|split].
  - intros e -> first. reflexivity.
  - destruct r as [response|e]; [|reflexivity].
    unfold story_arrived. split_ifs; reflexivity.
  - intros response ->. unfold story_arrived. split_ifs; reflexivity.
Qed.

Lemma first_line_one_line (a : jsstring) : one_line a -> first_line a = a.
Proof.
  unfold one_line. induction a as [|x a IH]; intro H; simpl.
  - reflexivity.
  - destruct (N.eqb_spec x 10) as [-> | Hne].
    + exfalso. apply H. now left.
    + f_equal. apply IH. intro Hin. apply H. now right.
Qed.

Lemma first_line_prefix (p a : jsstring) :
  ~ In 10%N p -> first_line (p ++ a) = p ++ first_line a.
Proof.
  induction p as [|x p IH]; intro H; simpl.
  - reflexivity.
  - destruct (N.eqb_spec x 10) as [-> | Hne].
    + exfalso. apply H. now left.
    + f_equal. apply IH. intro Hin. apply H. now right.
Qed.

Lemma first_line_cut (a rest : jsstring) :
  first_line (a ++ 10%N :: rest) = first_line a.
Proof.
  induction a as [|x a IH]; simpl; [reflexivity|].
  destruct (N.eqb x 10); [reflexivity | now rewrite IH].
Qed.

Lemma remove_first_prefix (p s : jsstring) :
  JsString.remove_first p (p ++ s) = s.
Proof.
  destruct (p ++ s) as [|x rest] eqn:E; simpl; rewrite <- E, prefixb_app.
  - now rewrite skipn_app, skipn_all, Nat.sub_diag.
  - now rewrite skipn_app, skipn_all, Nat.sub_diag.
Qed.

Lemma last_snoc {A} (items : list A) (x d : A) : last (items ++ [x]) d = x.
Proof.
  induction items as [|y items IH]; [reflexivity|].
  simpl. destruct (items ++ [x]) eqn:E; [|exact IH].
  now destruct items.
Qed.

(** What [lastAction] reads back from the entry pushed last. *)
Lemma lastAction_snoc (history : list jsstring)
  (action narratorResponse : jsstring) :
  lastAction (history ++ [historyEntry action narratorResponse])
  = if JsString.eqb (first_line action) [] then str "continue"
    else first_line action.
Proof.
  unfold lastAction. rewrite map_app. cbn [map].
  rewrite last_snoc. unfold historyEntry.
  rewrite first_line_prefix by (vm_compute; intuition discriminate).
  change ([10%N] ++ str "Narrator: " ++ narratorResponse)
    with (10%N :: str "Narrator: " ++ narratorResponse).
  rewrite first_line_cut, remove_first_prefix. reflexivity.
Qed.

(** X18. What "Try again" replays. After a recorded turn, the replayed
    action is the first line of that turn's action, or ["continue"] when that
    line is empty: what the player typed after a line feed is lost. *)
Theorem lastAction_of_recorded_turn (history : list jsstring)
  (action narratorResponse : jsstring) :
  lastAction (history ++ [historyEntry action narratorResponse])
  = if JsString.eqb (first_line action) [] then str "continue"
    else first_line action.
Proof.
  unfold lastAction. rewrite map_app. cbn [map].
  rewrite last_snoc. unfold historyEntry.
  rewrite first_line_prefix by (vm_compute; intuition discriminate).
  change ([10%N] ++ str "Narrator: " ++ narratorResponse)
    with (10%N :: str "Narrator: " ++ narratorResponse).
  rewrite first_line_cut, remove_first_prefix. reflexivity.
Qed.

(** X19. Record and replay compose: once a turn with a non-empty one-line
    action has completed, selecting "Try again" starts a new turn with that
    very action, and shows ["> Try again"] in the transcript. *)
Theorem try_again_replays_last_action (toUpperCase : jsstring -> jsstring)
  (s : Session) (choice : GameChoice) (dialog : option jsstring)
  (older : list jsstring) (action narratorResponse : jsstring) :
  text choice = str "Try again" ->
  gameHistory (gameState (ui s)) = older ++ [historyEntry action narratorResponse] ->
  one_line action -> action <> [] ->
  let s' := step toUpperCase (ChoiceClicked choice dialog) s in
  inflight s' = inflight s ++ [StoryCall (ui s) action false]
  /\ messages (gameState (ui s'))
     = messages (gameState (ui s)) ++ [{| type := user; content := str "> Try again" |}].
Proof.
  intros Htext Hhist Hline Hne. cbv zeta. unfold step, handleChoice.
  rewrite Htext, Hhist, lastAction_snoc.
  pose proof (first_line_one_line action Hline) as Hfirst.
  rewrite Hfirst, (eqb_nil_false action Hne).
  rewrite length_app. cbn [length].
  replace (0 <? length older + 1) with true
    by (symmetry; apply Nat.ltb_lt; lia).
  split; reflexivity.
Qed.

(** X20. "Continue with demo mode" turns the mode flag on and starts a turn
    with the action ["continue in demo mode"]; the banner it sets is wiped at
    once by the turn it starts, so no error text is left to show. *)
Theorem demo_mode_choice (snap : Component) (choice : GameChoice)
  (dialog : option jsstring) (s : Session) :
  text choice = str "Continue with demo mode" ->
  let s' := handleChoice snap choice dialog s in
  isUsingFallback (ui s') = true
  /\ apiError (ui s') = None
  /\ messages (gameState (ui s'))
     = messages (gameState (ui s))
       ++ [ {| type := user; content := str "> Continue with demo mode" |};
            {| type := system; content := str "SWITCHING TO DEMO MODE..." |} ]
  /\ inflight s' = inflight s ++ [StoryCall snap (str "continue in demo mode") false].
Proof.
  intro Htext. cbv zeta. unfold handleChoice. rewrite Htext.
  cbn. rewrite <- app_assoc. repeat split.
Qed.

(** X21. A typed action that is not blank, submitted while no response is
    awaited, is echoed in the transcript and sent as it was typed, spaces
    included; the input line is emptied, the choices are withdrawn and the
    session waits. *)
Theorem typed_action_is_sent (toUpperCase : jsstring -> jsstring) (s : Session) :
  trim (userInput (ui s)) <> [] ->
  isWaitingForResponse (gameState (ui s)) = false ->
  let s' := step toUpperCase Submitted s in
  inflight s' = inflight s ++ [StoryCall (ui s) (userInput (ui s)) false]
  /\ messages (gameState (ui s'))
     = messages (gameState (ui s))
       ++ [{| type := user; content := str "> " ++ userInput (ui s) |}]
  /\ userInput (ui s') = []
  /\ currentChoices (gameState (ui s')) = []
  /\ isWaitingForResponse (gameState (ui s')) = true.
Proof.
  intros Hinput Hidle. cbv zeta. unfold step, handleUserInput.
  rewrite (eqb_nil_false _ Hinput), Hidle. repeat split.
Qed.

(** X22. A response whose story merely holds the words "offline mode" or
    "fallback" switches the session to demo mode; any other story leaves the
    mode as it is. *)
Theorem fallback_wording_switches_mode (snap : Component) (action : jsstring)
  (first : bool) (response : AIResponse) (c : Component) :
  isUsingFallback (story_arrived snap action first (Ok response) c)
  = (JsString.includes (story response) (str "offline mode")
     || JsString.includes (story response) (str "fallback")
     || isUsingFallback c)%bool.
Proof.
  unfold story_arrived.
  destruct (JsString.includes (story response) (str "offline mode")
            || JsString.includes (story response) (str "fallback")).
  - destruct (no_error (apiError snap)); destruct first; reflexivity.
  - destruct first; reflexivity.
Qed.

(* ===================================================================== *)
(** ** Keys and game starts *)
(* ===================================================================== *)

(** X23. A key entered in the dialog is installed, trimmed, before it is
    tested, and it stays installed whatever the test says; when the test
    answers [false] the session is put in demo mode with an error banner. A
    dismissed dialog or a blank key changes nothing. *)
Theorem key_installed_before_tested (s : Session) (dialog : option jsstring) :
  match dialog with
  | Some key =>
      if JsString.eqb (trim key) [] then updateApiKey dialog s = s
      else
        forall r,
          let s' := resume (length (inflight s)) (Tested r) (updateApiKey dialog s) in
          config s' = updateConfig (config s) (trim key)
          /\ inflight s' = inflight s
          /\ (r = Ok false ->
              isUsingFallback (ui s') = true
              /\ apiError (ui s') = Some (str "Invalid API key or connection failed"))
  | None => updateApiKey dialog s = s
  end.
Proof.
  destruct dialog as [key|]; [|reflexivity].
  unfold updateApiKey.
  destruct (JsString.eqb (trim key) []) eqn:Hblank.
  - now rewrite orb_true_r.
  - assert (Hkey : JsString.eqb key [] = false).
    { destruct key; [discriminate Hblank | reflexivity]. }
    rewrite Hkey. cbn [orb]. intro r. cbv zeta.
    unfold resume, spawn, render. cbn [inflight ui config].
    rewrite nth_error_app2, Nat.sub_diag by lia. cbn [nth_error].
    rewrite remove_nth_last.
    destruct r as [[|]|e]; repeat split; discriminate.
Qed.

(** X24. Starting a game on a topic that is not blank empties the history
    and, once the timer has elapsed, begins the opening turn: a first turn
    with an empty action, on the topic as it was when the game was started. *)
Theorem game_start_begins_opening_turn (toUpperCase : jsstring -> jsstring)
  (s : Session) :
  trim (storyTopic (gameState (ui s))) <> [] ->
  let s' := run toUpperCase [StartClicked; Resumed (length (inflight s)) Elapsed] s in
  inflight s' = inflight s ++ [StoryCall (ui s) [] true]
  /\ gameStarted (gameState (ui s')) = true
  /\ gameHistory (gameState (ui s')) = []
  /\ isWaitingForResponse (gameState (ui s')) = true
  /\ length (messages (gameState (ui s'))) = length (messages (gameState (ui s))) + 5.
Proof.
  intro Htopic. cbv zeta. unfold run. cbn [fold_left step]. unfold startGame.
  rewrite (eqb_nil_false _ Htopic).
  unfold resume, spawn, render. cbn [inflight ui config].
  rewrite nth_error_app2, Nat.sub_diag by lia. cbn [nth_error].
  rewrite remove_nth_last.
  cbn. rewrite !length_app. cbn [length]. repeat split. lia.
Qed.

(* ===================================================================== *)
(** ** The configuration panel *)
(* ===================================================================== *)

(** X25. The panel never sends a blank key: testing with one only shows the
    request to enter a key, and pressing Enter with one, or while a test is
    running, does nothing at all. *)
Theorem panel_refuses_blank_key (snap : AIConfig.Form) (key : jsstring)
  (p : AIConfig.Panel) :
  trim (AIConfig.apiKey snap) = [] \/ AIConfig.isTesting snap = true ->
  AIConfig.handleKeyPress snap key p = p
  /\ (trim (AIConfig.apiKey snap) = [] ->
      let p' := AIConfig.handleTestConnection snap p in
      AIConfig.service p' = AIConfig.service p
      /\ AIConfig.awaited p' = AIConfig.awaited p
      /\ AIConfig.updates p' = AIConfig.updates p
      /\ AIConfig.errorMessage (AIConfig.form p') = str "Please enter an API key").
Proof.
  intro H. split.
  - unfold AIConfig.handleKeyPress. destruct H as [-> | ->].
    + cbn. now rewrite andb_false_r.
    + cbn. now rewrite andb_false_r.
  - intros Hblank. cbv zeta. unfold AIConfig.handleTestConnection.
    rewrite Hblank. repeat split.
Qed.

(** X26. A test from the panel installs the trimmed key first and keeps it
    whatever the outcome. When the test settles the panel is no longer
    testing, and it reports the configuration as done, by one call of
    [onConfigUpdate(true)], exactly when the test answered [true]. *)
Theorem panel_test_cycle (snap : AIConfig.Form) (r : result bool) (p : AIConfig.Panel) :
  trim (AIConfig.apiKey snap) <> [] ->
  let p' := AIConfig.test_settled r (AIConfig.handleTestConnection snap p) in
  AIService.apiKey (AIConfig.service p') = trim (AIConfig.apiKey snap)
  /\ AIConfig.isTesting (AIConfig.form p') = false
  /\ AIConfig.awaited p' = AIConfig.awaited p
  /\ AIConfig.updates p'
     = AIConfig.updates p ++ (if answered_true r then [true] else [])
  /\ AIConfig.testResult (AIConfig.form p')
     = Some (if answered_true r then AIConfig.success else AIConfig.error).
Proof.
  intro Hkey. cbv zeta. unfold AIConfig.handleTestConnection.
  rewrite (eqb_nil_false _ Hkey).
  destruct r as [[|]|e]; cbn; rewrite ?app_nil_r; repeat split.
Qed.

(* ===================================================================== *)
(** ** The properties above on the sample inputs *)
(* ===================================================================== *)

Lemma reply_without_json_falls_back_witness :
  makeAPIRequest exact_runtime sample_prose_reply 0 = Ok (JStr sample_prose_text)
  /\ match_braces (trim sample_prose_text) = None
  /\ exists v, JSON_parse (getFallbackResponse 2) = Some v
               /\ AIService.generateStoryResponse exact_runtime sample_prose_reply 0 2
                  = Ok v.
Proof.
  assert (H : makeAPIRequest exact_runtime sample_prose_reply 0
              = Ok (JStr sample_prose_text)) by (vm_compute; reflexivity).
  split; [exact H|]. split; [vm_compute; reflexivity|].
  apply (reply_without_json_falls_back exact_runtime sample_prose_reply 0 2
           sample_prose_text H).
  vm_compute. exact I.
Defined.

Lemma reply_with_wrong_shape_falls_back_witness :
  exists v, JSON_parse (getFallbackResponse 4) = Some v
            /\ AIService.generateStoryResponse exact_runtime sample_shapeless_reply 0 4
               = Ok v.
Proof.
  apply (reply_with_wrong_shape_falls_back exact_runtime sample_shapeless_reply 0 4
           sample_shapeless_text sample_shapeless_text
           (JObj [(str "story", JStr []); (str "choices", JArr [])]));
    [ vm_compute; reflexivity | vm_compute; reflexivity | vm_compute; reflexivity
    | left; reflexivity ].
Defined.

Lemma null_choice_throws_witness :
  exists e, normalize exact_runtime sample_null_first = Throw e.
Proof.
  apply (null_choice_throws exact_runtime sample_null_first [JNull; sample_entry]);
    [reflexivity | left; reflexivity].
Defined.

Lemma entries_after_fourth_ignored_witness :
  normalize exact_runtime sample_null_fifth
  = normalize exact_runtime
      (payload_object (JStr (str "A cold wind."))
         [sample_entry; sample_entry; sample_entry; sample_entry]).
Proof.
  apply (entries_after_fourth_ignored exact_runtime _ _
           [sample_entry; sample_entry; sample_entry; sample_entry; JNull]
           [sample_entry; sample_entry; sample_entry; sample_entry]);
    try reflexivity; simpl; lia.
Defined.

Lemma generation_success_returns_text_witness :
  makeAPIRequest exact_runtime sample_prose_reply 5 = Ok (JStr sample_prose_text).
Proof.
  apply generation_success_returns_text; [reflexivity | vm_compute; reflexivity].
Defined.

Lemma conformant_payload_unchanged_witness :
  normalize exact_runtime (payload_object (JStr (str "A door.")) sample_conformant)
  = Ok (payload_object (JStr (str "A door.")) sample_conformant).
Proof.
  apply conformant_payload_unchanged;
    [ discriminate | simpl; lia | reflexivity | ].
  repeat (apply Forall_cons;
          [eexists; eexists; split; [reflexivity|];
           split; [discriminate|]; split; [discriminate | simpl; lia] |]).
  apply Forall_nil.
Defined.

Lemma connection_test_counts_choices_witness :
  testConnection exact_runtime sample_three_reply 0 = Ok false.
Proof.
  exact (connection_test_counts_choices exact_runtime sample_three_reply 0
           sample_three_text sample_three_text (str "A door.")
           (JObj [ (str "story", JStr (str "A door."));
                   (str "choices",
                    JArr [JStr (str "Open"); JStr (str "Knock"); JStr (str "Leave")]) ])
           [JStr (str "Open"); JStr (str "Knock"); JStr (str "Leave")]
           eq_refl eq_refl eq_refl eq_refl ltac:(discriminate) eq_refl).
Defined.

Lemma prompt_uses_last_two_entries_witness :
  Prompt.createNarratorPrompt (str "lost cave")
    ([str "first"; str "second"] ++ [str "third"; str "fourth"]) (str "look") false
  = Prompt.createNarratorPrompt (str "lost cave")
      [str "third"; str "fourth"] (str "look") false.
Proof.
  apply prompt_uses_last_two_entries. simpl. lia.
Defined.

Lemma transcript_append_only_witness :
  exists more,
    messages (gameState (ui (run JsString.ascii_upper
                               [ChoiceClicked look_around None; Submitted]
                               sample_typing)))
    = messages (gameState (ui sample_typing)) ++ more.
Proof.
  apply transcript_append_only.
  repeat (apply Forall_cons; [reflexivity|]). apply Forall_nil.
Defined.

Lemma restart_keeps_calls_in_flight_witness :
  nth_error (inflight sample_early_input) 1
  = Some (StoryCall (ui (step JsString.ascii_upper (InputChanged (str "look"))
                              (run JsString.ascii_upper sample_start initial_session)))
                    (str "look") false)
  /\ messages (gameState (ui (resume 1 (Story (Ok opening_response))
                                      (restartGame sample_early_input))))
     = [{| type := narrator; content := story opening_response |}].
Proof.
  assert (H : nth_error (inflight sample_early_input) 1
              = Some (StoryCall
                        (ui (step JsString.ascii_upper (InputChanged (str "look"))
                               (run JsString.ascii_upper sample_start initial_session)))
                        (str "look") false)) by reflexivity.
  split; [exact H|].
  apply (restart_keeps_calls_in_flight sample_early_input 1 _ _ _ opening_response H).
Defined.

Lemma try_again_replays_last_action_witness :
  let s' := step JsString.ascii_upper (ChoiceClicked try_again None) sample_played in
  inflight s' = inflight sample_played
                ++ [StoryCall (ui sample_played) (str "Look around") false]
  /\ messages (gameState (ui s'))
     = messages (gameState (ui sample_played))
       ++ [{| type := user; content := str "> Try again" |}].
Proof.
  apply (try_again_replays_last_action JsString.ascii_upper sample_played try_again
           None [] (str "Look around") (story retry_response));
    [ reflexivity | reflexivity | | discriminate ].
  unfold one_line. vm_compute. intuition discriminate.
Defined.

Lemma demo_mode_choice_witness :
  let s' := handleChoice (ui sample_idle) demo_choice None sample_idle in
  isUsingFallback (ui s') = true /\ apiError (ui s') = None.
Proof.
  destruct (demo_mode_choice (ui sample_idle) demo_choice None sample_idle eq_refl)
    as [Hmode [Herr _]].
  split; [exact Hmode | exact Herr].
Defined.

Lemma typed_action_is_sent_witness :
  inflight (step JsString.ascii_upper Submitted sample_typing)
  = inflight sample_typing ++ [StoryCall (ui sample_typing) (str "go north  ") false].
Proof.
  destruct (typed_action_is_sent JsString.ascii_upper sample_typing) as [H _];
    [ discriminate | reflexivity | exact H ].
Defined.

Lemma game_start_begins_opening_turn_witness :
  inflight (run JsString.ascii_upper [StartClicked; Resumed 0 Elapsed] sample_topic)
  = [StoryCall (ui sample_topic) [] true].
Proof.
  destruct (game_start_begins_opening_turn JsString.ascii_upper sample_topic) as [H _];
    [ discriminate | exact H ].
Defined.

Lemma panel_refuses_blank_key_witness :
  AIConfig.handleKeyPress sample_blank_form (str "Enter") AIConfig.initial_panel
  = AIConfig.initial_panel.
Proof.
  destruct (panel_refuses_blank_key sample_blank_form (str "Enter")
              AIConfig.initial_panel) as [H _];
    [ left; reflexivity | exact H ].
Defined.

Lemma panel_test_cycle_witness :
  let p' := AIConfig.test_settled (Ok false)
              (AIConfig.handleTestConnection sample_form AIConfig.initial_panel) in
  AIService.apiKey (AIConfig.service p') = str "AIzaSy-sample-key"
  /\ AIConfig.isTesting (AIConfig.form p') = false.
Proof.
  destruct (panel_test_cycle sample_form (Ok false) AIConfig.initial_panel)
    as [Hkey [Htesting _]]; [discriminate|].
  split; [exact Hkey | exact Htesting].
Defined.

(* ===================================================================== *)
(** ** The invariants of a normalised payload *)
(* ===================================================================== *)

Lemma four_choices_forall (P : json -> Prop) (cs : list json) :
  (forall n, P (pushed_choice n)) ->
  Forall P cs -> Forall P (four_choices cs).
Proof.
  intros Hpushed H. rewrite four_choices_spec. apply Forall_app; split.
  - apply Forall_forall; intros c Hc.
    rewrite Forall_forall in H. apply H.
    rewrite <- (firstn_skipn 4 cs). apply in_or_app; left; exact Hc.
  - apply Forall_forall; intros c Hc.
    apply in_map_iff in Hc as [n [<- _]]. apply Hpushed.
Qed.

Lemma to_choice_repaired (R : Runtime) (c : json) (index : nat) :
  id_is_string c = true ->
  exists i, to_choice (repaired R c index)
            = Some {| id := i; text := clipped (text_or_label c index) 35 32 |}.
Proof.
  unfold id_is_string, repaired, id_or_position, to_choice.
  change (field (choice_object ?a ?b) (str "id")) with (Some a).
  change (field (choice_object ?a ?b) (str "text")) with (Some b).
  destruct (field c (str "id")) as [[| | | i | |]|]; try discriminate; intros _;
    cbn [truthy]; try (eexists; reflexivity).
  destruct (negb (JsString.eqb i [])); eexists; reflexivity.
Qed.

(** X27. The result of the normaliser keeps the invariants of a turn
    payload: on a payload with a non-empty story string and an array of
    choices whose ids, when present, are strings, it returns an object that
    reads at the type of the component as a non-empty story of at most 400
    code units and exactly four choices with texts of at most 35. *)
Theorem normalized_payload_is_valid (R : Runtime) (parsed : json) (s : jsstring)
  (cs : list json) :
  field parsed (str "story") = Some (JStr s) ->
  s <> [] ->
  field parsed (str "choices") = Some (JArr cs) ->
  Forall (fun c => choice_like c = true) cs ->
  Forall (fun c => id_is_string c = true) cs ->
  exists v p,
    normalize R parsed = Ok v
    /\ to_AIResponse v = Some p
    /\ valid_payload p.
Proof.
  intros Hs Hne Hc Hlike Hids.
  pose proof (normalize_like R parsed s cs Hs Hne Hc Hlike) as Hv.
  pose proof (four_choices_length cs) as Hlen.
  pose proof (four_choices_forall (fun c => id_is_string c = true) cs
                (fun n => eq_refl) Hids) as Hfour.
  destruct (four_choices cs) as [|a [|b [|c [|d [|x rest]]]]]; try discriminate.
  cbn [repaired_from Nat.add] in Hv.
  inversion Hfour as [|? ? Ha Hfour1]; subst.
  inversion Hfour1 as [|? ? Hb Hfour2]; subst.
  inversion Hfour2 as [|? ? Hc' Hfour3]; subst.
  inversion Hfour3 as [|? ? Hd _]; subst.
  destruct (to_choice_repaired R a 0 Ha) as [ia Hia].
  destruct (to_choice_repaired R b 1 Hb) as [ib Hib].
  destruct (to_choice_repaired R c 2 Hc') as [ic Hic].
  destruct (to_choice_repaired R d 3 Hd) as [id' Hid].
  eexists. eexists. split; [exact Hv|]. split.
  - unfold to_AIResponse.
    change (field (payload_object ?x ?y) (str "story")) with (Some x).
    change (field (payload_object ?x ?y) (str "choices")) with (Some (JArr y)).
    cbn [to_choices]. rewrite Hia, Hib, Hic, Hid. reflexivity.
  - unfold valid_payload. cbn [story choices].
    split; [now apply clipped_not_nil|].
    split; [apply clipped_bound; lia|].
    split; [reflexivity|].
    repeat (apply Forall_cons; [cbn [text]; apply clipped_bound; lia|]).
    apply Forall_nil.
Qed.

Lemma normalized_payload_is_valid_witness :
  exists v p,
    normalize exact_runtime sample_payload = Ok v
    /\ to_AIResponse v = Some p
    /\ valid_payload p.
Proof.
  apply (normalized_payload_is_valid exact_runtime sample_payload sample_long_story
           [sample_entry]);
    [ reflexivity | discriminate | reflexivity
    | repeat constructor | repeat constructor ].
Defined.

(* ===================================================================== *)
(** ** Four choices, whatever follows the fourth entry *)
(* ===================================================================== *)

Lemma four_choices_forall_first (P : json -> Prop) (cs : list json) :
  (forall n, P (pushed_choice n)) ->
  Forall P (firstn 4 cs) -> Forall P (four_choices cs).
Proof.
  intros Hpushed H. rewrite four_choices_spec. apply Forall_app; split.
  - exact H.
  - apply Forall_forall; intros c Hc.
    apply in_map_iff in Hc as [n [<- _]]. apply Hpushed.
Qed.

(** What the normaliser returns when the entries it reads are choices. *)
Lemma normalize_like_first (R : Runtime) (parsed : json) (s : jsstring)
  (cs : list json) :
  field parsed (str "story") = Some (JStr s) ->
  s <> [] ->
  field parsed (str "choices") = Some (JArr cs) ->
  Forall (fun c => choice_like c = true) (firstn 4 cs) ->
  normalize R parsed
  = Ok (payload_object (JStr (clipped s 400 380))
                       (repaired_from R (four_choices cs) 0)).
Proof.
  intros Hs Hne Hc Hlike. unfold normalize.
  assert (Hnn : parsed <> JNull) by (intros ->; discriminate Hs).
  rewrite !get_not_null by exact Hnn. cbn [bind]. rewrite Hs, Hc.
  cbn [truthy]. rewrite (eqb_nil_false s Hne). cbn [negb].
  rewrite clip_string. cbn [bind].
  rewrite (map_choices_like R _ 0
             (four_choices_forall_first (fun c => choice_like c = true) cs
                pushed_choice_like Hlike)).
  reflexivity.
Qed.

(** C5, as the code has it. Take a parsed payload with a non-empty story
    string and an array of choices. When the first four entries of the array
    are choices (none is [null]; a text, when present, is a string or
    [null]), the payload is normalised to exactly four choices: the first
    four entries are kept, in order, each repaired in its place, and an entry
    that already has a non-empty id and a non-empty text of at most 35 code
    units is kept as it is; every position from the length of the array up
    to four is filled with the default choice of that position, whose id is
    its 1-based position as a string. When one of the first four entries is
    [null], the normaliser throws instead of repairing it. Whenever the
    normaliser returns, its result has exactly four choices. *)
Theorem exactly_four_choices (R : Runtime) (parsed : json) (s : jsstring)
  (cs : list json) :
  field parsed (str "story") = Some (JStr s) ->
  s <> [] ->
  field parsed (str "choices") = Some (JArr cs) ->
  (Forall (fun c => choice_like c = true) (firstn 4 cs) ->
   exists story' out,
     normalize R parsed = Ok (payload_object story' out)
     /\ length out = 4
     /\ (forall i c, i < 4 -> nth_error cs i = Some c ->
           nth_error out i = Some (repaired R c i))
     /\ (forall i c id t, i < 4 -> nth_error cs i = Some c ->
           field c (str "id") = Some (JStr id) -> id <> [] ->
           field c (str "text") = Some (JStr t) -> t <> [] -> length t <= 35 ->
           nth_error out i = Some (choice_object (JStr id) (JStr t)))
     /\ (forall i, length cs <= i < 4 ->
           exists d, nth_error defaultChoices i = Some d
                     /\ nth_error out i
                        = Some (choice_object (JStr (JsString.of_nat (i + 1)))
                                              (JStr d))))
  /\ (In JNull (firstn 4 cs) -> exists e, normalize R parsed = Throw e)
  /\ (forall v, normalize R parsed = Ok v ->
        exists story' out, v = payload_object story' out /\ length out = 4).
Proof.
  intros Hs Hne Hc. split; [|split].
  - intro Hlike.
    exists (JStr (clipped s 400 380)), (repaired_from R (four_choices cs) 0).
    split; [apply normalize_like_first; assumption|].
    split; [now rewrite repaired_from_length, four_choices_length|].
    assert (Horig : forall i c, i < 4 -> nth_error cs i = Some c ->
              nth_error (repaired_from R (four_choices cs) 0) i
              = Some (repaired R c i)).
    { intros i c Hi Hnth.
      apply (repaired_from_nth R (four_choices cs) 0 i c).
      now apply four_choices_nth_original. }
    split; [exact Horig|]. split.
    + intros i c id t Hi Hnth Hid Hidne Ht Htne Hlen.
      rewrite (Horig i c Hi Hnth). f_equal.
      now apply repaired_conformant.
    + intros i Hi.
      destruct (repaired_pushed R i (proj2 Hi)) as [d [Hd Hrep]].
      exists d; split; [exact Hd|].
      rewrite (repaired_from_nth R (four_choices cs) 0 i (pushed_choice i)
                 (four_choices_nth_default cs i Hi)).
      simpl. now rewrite Hrep.
  - intro Hnull. unfold normalize.
    assert (Hnn : parsed <> JNull) by (intros ->; discriminate Hs).
    rewrite !get_not_null by exact Hnn. cbn [bind]. rewrite Hs, Hc.
    cbn [truthy]. rewrite (eqb_nil_false s Hne). cbn [negb].
    rewrite clip_string. cbn [bind].
    destruct (map_choices_null R (four_choices cs) 0
                (firstn_in_four_choices cs JNull Hnull)) as [e ->].
    eexists; reflexivity.
  - intros v Hv. exact (normalize_four_choices R parsed v Hv).
Qed.

Lemma exactly_four_choices_witness :
  exists story' out,
    normalize exact_runtime sample_null_fifth = Ok (payload_object story' out)
    /\ length out = 4.
Proof.
  destruct (exactly_four_choices exact_runtime sample_null_fifth
              (str "A cold wind.")
              [sample_entry; sample_entry; sample_entry; sample_entry; JNull])
    as [Hchoices _]; [reflexivity | discriminate | reflexivity |].
  destruct Hchoices as [story' [out [H [Hlen _]]]]; [repeat constructor|].
  exists story', out. split; [exact H | exact Hlen].
Defined.

(** C5 as stated fails. The payload has a non-empty story and an array of
    two choices, the first of them [null]: the normaliser throws, and the
    service answers a reply that carries this payload with the first payload
    of the pool, not with the two entries and two default choices. *)
Lemma null_entry_defeats_padding :
  field sample_null_first (str "story") = Some (JStr (str "A cold wind."))
  /\ field sample_null_first (str "choices") = Some (JArr [JNull; sample_entry])
  /\ normalize exact_runtime sample_null_first = Throw (ErrorObj (str "TypeError"))
  /\ makeAPIRequest exact_runtime sample_null_reply 0
     = Ok (JStr (quoted
"{~story~: ~A cold wind.~, ~choices~: [null, {~id~: ~1~, ~text~: ~Open the door~}]}"))
  /\ exists v, JSON_parse fallback1 = Some v
               /\ AIService.generateStoryResponse exact_runtime sample_null_reply 0 0
                  = Ok v.
Proof.
  split; [reflexivity|]. split; [reflexivity|].
  split; [vm_compute; reflexivity|]. split; [vm_compute; reflexivity|].
  eexists. split; vm_compute; reflexivity.
Qed.

(* ===================================================================== *)
(** ** The opening turn does not look at the waiting flag *)
(* ===================================================================== *)

Lemma filter_remove_nth {A} (f : A -> bool) (items : list A) (i : nat) (x : A) :
  nth_error items i = Some x -> f x = false ->
  filter f (remove_nth i items) = filter f items.
Proof.
  unfold remove_nth.
  revert i; induction items as [|y items IH]; intros [|i] H Hx; simpl in *;
    try discriminate.
  - injection H as ->. now rewrite Hx.
  - rewrite (IH i H Hx). reflexivity.
Qed.

(** C8, evaluated. When the timer of [startGame] fires in a state where a
    response is awaited, the opening turn is started all the same: it is not
    a no-op, one more generation call is in flight than before. *)
Theorem timer_starts_overlapping_call (s : Session) (i : nat) (snap : Component) :
  nth_error (inflight s) i = Some (StartTimer snap) ->
  isWaitingForResponse (gameState (ui s)) = true ->
  let s' := resume i Elapsed s in
  story_calls s' = S (story_calls s)
  /\ inflight s' = remove_nth i (inflight s) ++ [StoryCall snap [] true]
  /\ isWaitingForResponse (gameState (ui s')) = true.
Proof.
  intros Hnth Hwaiting. cbv zeta. unfold resume. rewrite Hnth.
  unfold story_calls, generateStoryResponse, spawn, render. cbn [inflight ui].
  rewrite filter_app, length_app.
  rewrite (filter_remove_nth _ (inflight s) i (StartTimer snap) Hnth eq_refl).
  cbn. repeat split. lia.
Qed.

Lemma timer_starts_overlapping_call_witness :
  nth_error (inflight sample_early_input) 0 = Some (StartTimer sample_start_snap)
  /\ isWaitingForResponse (gameState (ui sample_early_input)) = true
  /\ story_calls sample_early_input = 1
  /\ story_calls (resume 0 Elapsed sample_early_input) = 2.
Proof.
  assert (Hnth : nth_error (inflight sample_early_input) 0
                 = Some (StartTimer sample_start_snap)) by reflexivity.
  assert (Hwaiting : isWaitingForResponse (gameState (ui sample_early_input)) = true)
    by reflexivity.
  split; [exact Hnth|]. split; [exact Hwaiting|]. split; [reflexivity|].
  destruct (timer_starts_overlapping_call sample_early_input 0 sample_start_snap
              Hnth Hwaiting) as [H _].
  exact H.
Defined.

(* ===================================================================== *)
(** ** Normalising twice *)
(* ===================================================================== *)

Lemma clip_idem (R : Runtime) (v v' : json) (limit keep : nat) :
  keep + 3 <= limit ->
  clip R v limit keep = Ok v' -> clip R v' limit keep = Ok v'.
Proof.
  intros Hfit H. unfold clip in H.
  destruct (length_gt R v limit) as [[|]|e] eqn:Hgt; cbn [bind] in H;
    try discriminate.
  - destruct v as [| | | t | |]; try discriminate.
    cbn [substring0 bind] in H. injection H as <-.
    unfold length_gt in Hgt. cbn [length_of] in Hgt. injection Hgt as Hgt.
    apply Nat.ltb_lt in Hgt.
    unfold clip, length_gt. cbn [length_of].
    rewrite cut_length by lia.
    replace (limit <? keep + 3) with false
      by (symmetry; apply Nat.ltb_ge; lia).
    reflexivity.
  - injection H as <-. unfold clip. now rewrite Hgt.
Qed.

Lemma option_label_truthy (R : Runtime) (n : nat) :
  truthy R (Some (JStr (option_label n))) = true.
Proof. reflexivity. Qed.

Lemma position_truthy (R : Runtime) (index : nat) :
  index < 4 -> truthy R (Some (JStr (JsString.of_nat (index + 1)))) = true.
Proof.
  intro H. destruct index as [|[|[|[|index]]]]; try lia; reflexivity.
Qed.

(** Repairing the result of a repair changes nothing, whatever the entry. *)
Lemma validChoice_idem (R : Runtime) (c o : json) (index : nat) :
  index < 4 ->
  validChoice R c index = Ok o -> validChoice R o index = Ok o.
Proof.
  intros Hi H. unfold validChoice in H.
  destruct (get c (str "text")) as [text|e] eqn:Htext; [|discriminate].
  cbn [bind] in H.
  set (choiceText := match text with
                     | Some t => if truthy R text then t
                                 else JStr (option_label (index + 1))
                     | None => JStr (option_label (index + 1))
                     end) in H.
  assert (Htruthy : truthy R (Some choiceText) = true).
  { subst choiceText. destruct text as [t|]; [|apply option_label_truthy].
    destruct (truthy R (Some t)) eqn:Ht; [exact Ht | apply option_label_truthy]. }
  destruct (clip R choiceText 35 32) as [text'|e] eqn:Hclip; [|discriminate].
  cbn [bind] in H.
  destruct (get c (str "id")) as [id|e] eqn:Hid; [|discriminate].
  cbn [bind] in H. injection H as <-.
  set (idv := match id with
              | Some i => if truthy R id then i
                          else JStr (JsString.of_nat (index + 1))
              | None => JStr (JsString.of_nat (index + 1))
              end).
  assert (Hidv : truthy R (Some idv) = true).
  { subst idv. destruct id as [i|]; [|now apply position_truthy].
    destruct (truthy R (Some i)) eqn:Ht; [exact Ht | now apply position_truthy]. }
  unfold validChoice.
  change (get (choice_object idv text') (str "text")) with (Ok (Some text')).
  change (get (choice_object idv text') (str "id")) with (Ok (Some idv)).
  cbn [bind].
  rewrite (clip_truthy R choiceText text' 35 32 Hclip Htruthy).
  rewrite (clip_idem R choiceText text' 35 32 (le_n 35) Hclip). cbn [bind].
  now rewrite Hidv.
Qed.

Lemma map_choices_idem (R : Runtime) (cs out : list json) (index : nat) :
  index + length cs <= 4 ->
  map_choices R cs index = Ok out -> map_choices R out index = Ok out.
Proof.
  revert out index; induction cs as [|c cs IH]; intros out index Hlen H;
    simpl in H.
  - now injection H as <-.
  - destruct (validChoice R c index) as [c'|e] eqn:Hc; [|discriminate].
    cbn [bind] in H.
    destruct (map_choices R cs (index + 1)) as [rest|e] eqn:Hrest; [|discriminate].
    cbn [bind] in H. injection H as <-. simpl in Hlen. simpl.
    rewrite (validChoice_idem R c c' index) by (lia || exact Hc). cbn [bind].
    rewrite (IH rest (index + 1)) by (lia || exact Hrest).
    reflexivity.
Qed.

(** X7. Normalising is idempotent: whatever the payload, a result that the
    normaliser has returned is returned unchanged when normalised again. *)
Theorem normalize_idempotent (R : Runtime) (parsed v : json) :
  normalize R parsed = Ok v -> normalize R v = Ok v.
Proof.
  intro H.
  destruct (normalize_four_choices R parsed v H) as [story' [out [-> Hlen]]].
  pose proof (normalize_story_truthy R parsed story' out H) as Htruthy.
  unfold normalize in H.
  destruct (get parsed (str "story")) as [story|e]; [|discriminate]. cbn [bind] in H.
  destruct (get parsed (str "choices")) as [choices|e]; [|discriminate].
  cbn [bind] in H.
  destruct story as [story|]; [|discriminate].
  destruct choices as [[| | | | cs |]|]; try discriminate.
  destruct (truthy R (Some story)); [|discriminate].
  destruct (clip R story 400 380) as [clipped_story|e] eqn:Hclip; [|discriminate].
  cbn [bind] in H.
  destruct (map_choices R (four_choices cs) 0) as [vs|e] eqn:Hmap; [|discriminate].
  cbn [bind] in H. injection H as <- <-.
  unfold normalize.
  change (get (payload_object clipped_story vs) (str "story"))
    with (Ok (Some clipped_story)).
  change (get (payload_object clipped_story vs) (str "choices"))
    with (Ok (Some (JArr vs))).
  cbn [bind]. rewrite Htruthy.
  assert (Hfit : 380 + 3 <= 400) by lia.
  rewrite (clip_idem R story clipped_story 400 380 Hfit Hclip). cbn [bind].
  unfold four_choices at 1. rewrite Hlen. cbn [Nat.eqb].
  rewrite (map_choices_idem R (four_choices cs) vs 0)
    by (rewrite ?four_choices_length; simpl; (lia || exact Hmap)).
  reflexivity.
Qed.

Lemma normalize_idempotent_witness :
  exists v, normalize exact_runtime sample_payload = Ok v
            /\ normalize exact_runtime v = Ok v.
Proof.
  assert (Hlike : Forall (fun c => choice_like c = true) [sample_entry])
    by (repeat constructor).
  assert (Hne : sample_long_story <> []) by discriminate.
  pose proof (normalize_like exact_runtime sample_payload sample_long_story
                [sample_entry] eq_refl Hne eq_refl Hlike) as Hv.
  eexists. split; [exact Hv|].
  exact (normalize_idempotent exact_runtime sample_payload _ Hv).
Defined.
